(** * Agent tools (Linear, GitHub, ElevenLabs, OpenAI): the tool contract

    A shallow embedding of the four tool definitions
    ([createLinearTool], [createGitHubTool], [createElevenLabsTool],
    [createOpenAITool]) and of their transport helpers, followed by the
    properties of the uniform result envelope.

    Conventions of the embedding:
    - a JavaScript value of static type [unknown] is a [jsval];
    - a JavaScript string is a [string] (its UTF-8 bytes);
    - a number is a rational [Q]: the code never computes with numbers, it
      only passes them on and tests them against zero ([NaN] and the
      infinities, which JSON cannot carry, are left out);
    - [async]/[await] is sequential composition in the monad [M], whose
      state is the list of HTTP requests issued so far and whose failure
      is a thrown exception (a rejected promise);
    - [Record<string, unknown>] arguments, [process.env] and the [details]
      object of an envelope are finite maps keyed by strings. *)

From Stdlib Require Import ZArith QArith String Ascii List DecimalString.
From stdpp Require Import base gmap strings list.

Set Warnings "-register-all".

Local Open Scope string_scope.
Local Open Scope Z_scope.

(** ** JavaScript values *)

Inductive jsval : Type :=
  | VUndefined
  | VNull
  | VBool (b : bool)
  | VNum (q : Q)
  | VStr (s : string)
  | VArr (items : list jsval)
  | VObj (members : list (string * jsval)).

(** The double-quote character, and the empty string. *)
Definition dquote_char : ascii := ascii_of_nat 34.
Definition dquote : string := String dquote_char EmptyString.

Definition is_empty (s : string) : bool :=
  match s with EmptyString => true | String _ _ => false end.

(** [!!v] : JavaScript truthiness. *)
Definition truthy (v : jsval) : bool :=
  match v with
  | VUndefined | VNull => false
  | VBool b => b
  | VNum q => negb (Qeq_bool q 0)
  | VStr s => negb (is_empty s)
  | VArr _ | VObj _ => true
  end.

(** A [string | undefined] as a value. *)
Definition of_opt (o : option string) : jsval :=
  match o with Some s => VStr s | None => VUndefined end.

(** [a || d] on [string | undefined]. *)
Definition or_default (o : option string) (d : string) : string :=
  match o with
  | Some s => if is_empty s then d else s
  | None => d
  end.

(** [v ?? d] : only [undefined] and [null] fall back. *)
Definition nullish (v d : jsval) : jsval :=
  match v with VUndefined | VNull => d | _ => v end.

(** [hay.includes(needle)]. *)
Fixpoint includes (needle hay : string) : bool :=
  if String.prefix needle hay then true
  else match hay with
       | EmptyString => false
       | String _ hay' => includes needle hay'
       end.

(** Own-property lookup and assignment on an object literal; assignment
    keeps the position of a key that is already there. *)
Fixpoint obj_get (members : list (string * jsval)) (k : string) : option jsval :=
  match members with
  | [] => None
  | (k', v) :: rest => if String.eqb k' k then Some v else obj_get rest k
  end.

Fixpoint obj_set (members : list (string * jsval)) (k : string) (v : jsval)
  : list (string * jsval) :=
  match members with
  | [] => [(k, v)]
  | (k', v') :: rest =>
      if String.eqb k' k then (k', v) :: rest else (k', v') :: obj_set rest k v
  end.

(** Decimal rendering of an integer (HTTP status codes, array lengths). *)
Definition decimal (z : Z) : string := NilZero.string_of_int (Z.to_int z).

(** ** JSON.parse

    The JSON grammar of ECMA-404, which [JSON.parse] implements: a value is
    an object, an array, a string, a number or one of the three literals;
    an object member is a *double-quoted* string, a colon and a value.
    Numbers are read to their exact decimal value. *)

Inductive parsed (A : Type) : Type :=
  | POk (a : A) (rest : string)
  | PSyntax
  | PFuel.
Arguments POk {A} a rest.
Arguments PSyntax {A}.
Arguments PFuel {A}.

Definition is_ws (c : ascii) : bool :=
  let n := nat_of_ascii c in
  (n =? 32)%nat || (n =? 9)%nat || (n =? 10)%nat || (n =? 13)%nat.

Fixpoint skip_ws (s : string) : string :=
  match s with
  | String c s' => if is_ws c then skip_ws s' else s
  | EmptyString => s
  end.

Definition digit_of (c : ascii) : option Z :=
  let n := Z.of_nat (nat_of_ascii c) in
  if (48 <=? n) && (n <=? 57) then Some (n - 48) else None.

Definition hex_of (c : ascii) : option Z :=
  let n := Z.of_nat (nat_of_ascii c) in
  if (48 <=? n) && (n <=? 57) then Some (n - 48)
  else if (97 <=? n) && (n <=? 102) then Some (n - 87)
  else if (65 <=? n) && (n <=? 70) then Some (n - 55)
  else None.

Definition byte_of (z : Z) : ascii := ascii_of_nat (Z.to_nat z).

(** The UTF-8 bytes of a UTF-16 code unit (a surrogate pair stays two
    units). *)
Definition utf8 (n : Z) : string :=
  if n <? 128 then String (byte_of n) EmptyString
  else if n <? 2048 then
    String (byte_of (192 + n / 64)) (String (byte_of (128 + n mod 64)) EmptyString)
  else
    String (byte_of (224 + n / 4096))
      (String (byte_of (128 + (n / 64) mod 64))
         (String (byte_of (128 + n mod 64)) EmptyString)).

Definition simple_escape (c : ascii) : option ascii :=
  let n := nat_of_ascii c in
  if (n =? 34)%nat then Some c                     (* quote *)
  else if (n =? 92)%nat then Some c                (* backslash *)
  else if (n =? 47)%nat then Some c                (* slash *)
  else if (n =? 98)%nat then Some (ascii_of_nat 8)   (* b *)
  else if (n =? 102)%nat then Some (ascii_of_nat 12) (* f *)
  else if (n =? 110)%nat then Some (ascii_of_nat 10) (* n *)
  else if (n =? 114)%nat then Some (ascii_of_nat 13) (* r *)
  else if (n =? 116)%nat then Some (ascii_of_nat 9)  (* t *)
  else None.

(** The characters of a string literal, after its opening quote, up to and
    including the closing quote. *)
Fixpoint parse_chars (s : string) : option (string * string) :=
  match s with
  | EmptyString => None
  | String c s' =>
      let n := nat_of_ascii c in
      if (n =? 34)%nat then Some (EmptyString, s')
      else if (n =? 92)%nat then
        match s' with
        | EmptyString => None
        | String e s'' =>
            match simple_escape e with
            | Some c' =>
                match parse_chars s'' with
                | Some (str, rest) => Some (String c' str, rest)
                | None => None
                end
            | None =>
                if (nat_of_ascii e =? 117)%nat then   (* u and four hex digits *)
                  match s'' with
                  | String h1 (String h2 (String h3 (String h4 s4))) =>
                      match hex_of h1, hex_of h2, hex_of h3, hex_of h4 with
                      | Some d1, Some d2, Some d3, Some d4 =>
                          match parse_chars s4 with
                          | Some (str, rest) =>
                              Some (utf8 (((d1 * 16 + d2) * 16 + d3) * 16 + d4) +:+ str, rest)
                          | None => None
                          end
                      | _, _, _, _ => None
                      end
                  | _ => None
                  end
                else None
            end
        end
      else if (n <? 32)%nat then None
      else
        match parse_chars s' with
        | Some (str, rest) => Some (String c str, rest)
        | None => None
        end
  end.

(** A run of decimal digits: its value, its length and what follows. *)
Fixpoint parse_digits (s : string) (acc : Z) (count : Z) : Z * Z * string :=
  match s with
  | EmptyString => (acc, count, s)
  | String c s' =>
      match digit_of c with
      | Some d => parse_digits s' (acc * 10 + d) (count + 1)
      | None => (acc, count, s)
      end
  end.

Definition parse_fraction (s : string) : option (Z * Z * string) :=
  match s with
  | String c s' =>
      if (nat_of_ascii c =? 46)%nat then        (* . *)
        let '(f, k, rest) := parse_digits s' 0 0 in
        if k =? 0 then None else Some (f, k, rest)
      else Some (0, 0, s)
  | EmptyString => Some (0, 0, s)
  end.

Definition parse_exponent (s : string) : option (Z * string) :=
  match s with
  | String c s' =>
      if (nat_of_ascii c =? 101)%nat || (nat_of_ascii c =? 69)%nat then  (* e E *)
        let '(sign, s1) :=
          match s' with
          | String c' s1 =>
              if (nat_of_ascii c' =? 45)%nat then (-1, s1)
              else if (nat_of_ascii c' =? 43)%nat then (1, s1)
              else (1, s')
          | EmptyString => (1, s')
          end in
        let '(e, k, rest) := parse_digits s1 0 0 in
        if k =? 0 then None else Some (sign * e, rest)
      else Some (0, s)
  | EmptyString => Some (0, s)
  end.

Definition parse_number (s : string) : parsed jsval :=
  let '(sign, s0) :=
    match s with
    | String c s' => if (nat_of_ascii c =? 45)%nat then (-1, s') else (1, s)
    | EmptyString => (1, s)
    end in
  match s0 with
  | EmptyString => PSyntax
  | String c s1 =>
      match digit_of c with
      | None => PSyntax
      | Some d =>
          let '(i, _, s2) := if d =? 0 then (0, 1, s1) else parse_digits s1 d 1 in
          match parse_fraction s2 with
          | None => PSyntax
          | Some (f, k, s3) =>
              match parse_exponent s3 with
              | None => PSyntax
              | Some (e, s4) =>
                  POk (VNum (Qred (inject_Z (sign * (i * 10 ^ k + f))
                                   * Qpower (inject_Z 10) (e - k)))) s4
              end
          end
      end
  end.

Definition take_literal (lit : string) (v : jsval) (s : string) : parsed jsval :=
  if String.prefix lit s
  then POk v (String.substring (String.length lit) (String.length s - String.length lit) s)
  else PSyntax.

Fixpoint parse_value (fuel : nat) (s : string) : parsed jsval :=
  match fuel with
  | O => PFuel
  | S fuel' =>
      match skip_ws s with
      | EmptyString => PSyntax
      | String c r =>
          let n := nat_of_ascii c in
          if (n =? 123)%nat then                 (* open brace *)
            match skip_ws r with
            | String c' r' =>
                if (nat_of_ascii c' =? 125)%nat then POk (VObj []) r'
                else parse_members fuel' r []
            | EmptyString => PSyntax
            end
          else if (n =? 91)%nat then             (* open bracket *)
            match skip_ws r with
            | String c' r' =>
                if (nat_of_ascii c' =? 93)%nat then POk (VArr []) r'
                else parse_elements fuel' r []
            | EmptyString => PSyntax
            end
          else if (n =? 34)%nat then
            match parse_chars r with
            | Some (str, rest) => POk (VStr str) rest
            | None => PSyntax
            end
          else if (n =? 116)%nat then take_literal "true" (VBool true) (String c r)
          else if (n =? 102)%nat then take_literal "false" (VBool false) (String c r)
          else if (n =? 110)%nat then take_literal "null" VNull (String c r)
          else parse_number (String c r)
      end
  end

with parse_members (fuel : nat) (s : string) (acc : list (string * jsval))
  : parsed jsval :=
  match fuel with
  | O => PFuel
  | S fuel' =>
      match skip_ws s with
      | EmptyString => PSyntax
      | String c r =>
          (* a member starts with the quote of its name *)
          if (nat_of_ascii c =? 34)%nat then
            match parse_chars r with
            | None => PSyntax
            | Some (k, r1) =>
                match skip_ws r1 with
                | EmptyString => PSyntax
                | String c1 r2 =>
                    if (nat_of_ascii c1 =? 58)%nat then      (* colon *)
                      match parse_value fuel' r2 with
                      | POk v r3 =>
                          match skip_ws r3 with
                          | EmptyString => PSyntax
                          | String c3 r4 =>
                              if (nat_of_ascii c3 =? 44)%nat
                              then parse_members fuel' r4 (obj_set acc k v)
                              else if (nat_of_ascii c3 =? 125)%nat
                              then POk (VObj (obj_set acc k v)) r4
                              else PSyntax
                          end
                      | PSyntax => PSyntax
                      | PFuel => PFuel
                      end
                    else PSyntax
                end
            end
          else PSyntax
      end
  end

with parse_elements (fuel : nat) (s : string) (acc : list jsval) : parsed jsval :=
  match fuel with
  | O => PFuel
  | S fuel' =>
      match parse_value fuel' s with
      | POk v r1 =>
          match skip_ws r1 with
          | EmptyString => PSyntax
          | String c r2 =>
              if (nat_of_ascii c =? 44)%nat
              then parse_elements fuel' r2 (acc ++ [v])
              else if (nat_of_ascii c =? 93)%nat
              then POk (VArr (acc ++ [v])) r2
              else PSyntax
          end
      | PSyntax => PSyntax
      | PFuel => PFuel
      end
  end.

(** The whole text must be one value, with white space around it. *)
Definition parse_text (fuel : nat) (text : string) : parsed jsval :=
  match parse_value fuel text with
  | POk v rest =>
      match skip_ws rest with
      | EmptyString => POk v EmptyString
      | String _ _ => PSyntax
      end
  | PSyntax => PSyntax
  | PFuel => PFuel
  end.

Definition json_fuel (text : string) : nat := S (S (2 * String.length text)).

(** [JSON.parse(text)]: the value, or [None] for a [SyntaxError]. *)
Definition JSON_parse (text : string) : option jsval :=
  match parse_text (json_fuel text) text with
  | POk v _ => Some v
  | PSyntax | PFuel => None
  end.

(** ** Exceptions, requests and responses *)

(** Everything these files throw or catch is an [Error] instance (an
    [Error] of their own, or the [TypeError], [SyntaxError] or [URIError]
    of the runtime), and the catch clauses read only its [message]. *)
Inductive exn : Type := Error (message : string).

Definition message_of (e : exn) : string :=
  match e with Error m => m end.

Inductive res (A : Type) : Type :=
  | Ok (a : A)
  | Throw (e : exn).
Arguments Ok {A} a.
Arguments Throw {A} e.

(** A [FormData] entry: a text field, a field holding the
    [JSON.stringify] of a value, or a file. *)
Inductive form_part : Type :=
  | FieldText (s : string)
  | FieldJson (v : jsval)
  | FieldFile (blob : string) (filename : string).

(** The body of a request; [JsonBody v] is the text [JSON.stringify(v)]
    (which leaves out the members whose value is [undefined]). *)
Inductive payload : Type :=
  | NoBody
  | JsonBody (v : jsval)
  | FormBody (parts : list (string * form_part)).

Record request : Type := {
  req_url : string;
  req_method : string;
  req_headers : list (string * string);
  req_body : payload
}.

(** A [Response]: its status line and what each reader of the body
    delivers ([resp_bytes] for [arrayBuffer()] and [blob()]). *)
Record response : Type := {
  resp_ok : bool;
  resp_status : Z;
  resp_content_type : option string;
  resp_text : res string;
  resp_json : res jsval;
  resp_bytes : res string
}.

(** The network: what [fetch] settles to for a request; [Throw] is a
    transport failure. *)
Definition network : Type := request -> res response.

(** The services of the JavaScript runtime that the tools call and whose
    results no property below depends on. *)
Record runtime : Type := {
  JSON_stringify : jsval -> option string;      (* JSON.stringify(v, null, 2) *)
  ToString : jsval -> string;                   (* a number, array or object in a template *)
  ToNumber : jsval -> option Q;                 (* a non-number compared with [>]; None is NaN *)
  encodeURIComponent : string -> res string;
  toBase64 : string -> string;                  (* Buffer.from(b).toString("base64") *)
  SyntaxError_message : string -> string;       (* of JSON.parse, by text *)
  TypeError_message : jsval -> string -> string (* of a failed property access or call *)
}.

(** ** The monad of an [async] function *)

Definition M (A : Type) : Type := list request -> res A * list request.

Definition ret {A} (a : A) : M A := fun tr => (Ok a, tr).

Definition throw {A} (e : exn) : M A := fun tr => (Throw e, tr).

Definition lift {A} (r : res A) : M A := fun tr => (r, tr).

Definition bind {A B} (m : M A) (k : A -> M B) : M B :=
  fun tr =>
    match m tr with
    | (Ok a, tr') => k a tr'
    | (Throw e, tr') => (Throw e, tr')
    end.

Definition try_catch {A} (body : M A) (handler : exn -> M A) : M A :=
  fun tr =>
    match body tr with
    | (Ok a, tr') => (Ok a, tr')
    | (Throw e, tr') => handler e tr'
    end.

Notation "x <- m ;; k" := (bind m (fun x => k))
  (at level 100, m at next level, right associativity).

(** [await fetch(...)]: the request is recorded, then settled by the
    network. *)
Definition fetch (net : network) (rq : request) : M response :=
  fun tr => (net rq, (tr ++ [rq])%list).

(** Running a call from an empty request log. *)
Definition run {A} (m : M A) : res A * list request := m [].

(** ** Dynamic operations on values *)

Section Dynamic.
Context (rt : runtime).

(** [`${v}`]. *)
Definition template (v : jsval) : string :=
  match v with
  | VStr s => s
  | VUndefined => "undefined"
  | VNull => "null"
  | VBool true => "true"
  | VBool false => "false"
  | _ => ToString rt v
  end.

(** [v.k] for a named property [k]. *)
Definition get_prop (v : jsval) (k : string) : res jsval :=
  match v with
  | VUndefined | VNull => Throw (Error (TypeError_message rt v k))
  | VObj members => Ok (default VUndefined (obj_get members k))
  | VArr items =>
      if String.eqb k "length" then Ok (VNum (inject_Z (Z.of_nat (length items))))
      else Ok VUndefined
  | VStr s =>
      if String.eqb k "length" then Ok (VNum (inject_Z (Z.of_nat (String.length s))))
      else Ok VUndefined
  | VBool _ | VNum _ => Ok VUndefined
  end.

(** [v[0]]. *)
Definition get_first (v : jsval) : res jsval :=
  match v with
  | VUndefined | VNull => Throw (Error (TypeError_message rt v "0"))
  | VArr items => Ok (default VUndefined (head items))
  | VObj members => Ok (default VUndefined (obj_get members "0"))
  | VStr (String c _) => Ok (VStr (String c EmptyString))
  | VStr EmptyString | VBool _ | VNum _ => Ok VUndefined
  end.

(** [v > 0]. *)
Definition gt_zero (v : jsval) : bool :=
  match v with
  | VNum q => negb (Qle_bool q 0)
  | VUndefined => false
  | _ => match ToNumber rt v with
         | Some q => negb (Qle_bool q 0)
         | None => false
         end
  end.

(** [v && typeof v === "object" && "audio" in v]. *)
Definition has_audio (v : jsval) : bool :=
  match v with
  | VObj members => bool_decide (is_Some (obj_get members "audio"))
  | _ => false
  end.

(** [v.substring(0, 100)], a method of strings only. *)
Definition substring_0_100 (v : jsval) : res string :=
  match v with
  | VStr s => Ok (String.substring 0 100 s)
  | _ => Throw (Error (TypeError_message rt v "substring"))
  end.
End Dynamic.

(** ** Tool arguments, environment and result envelope *)

(** Modelled from the spec: [readStringParam] of [./common.js], which the
    tools import and which is not part of these files.  The spec's
    parameter validation: a required string parameter that is missing or
    empty is an immediate failure whose message embeds the parameter's
    name; an optional one that is missing or empty is [undefined]. *)
Definition readStringParam (params : gmap string jsval) (key : string)
    (required : bool) : res (option string) :=
  match params !! key with
  | Some (VStr (String c s)) => Ok (Some (String c s))
  | _ => if required then Throw (Error (key +:+ " required")) else Ok None
  end.

(** [params.key]. *)
Definition param (params : gmap string jsval) (key : string) : jsval :=
  default VUndefined (params !! key).

(** [!process.env.NAME]: unset, or set to the empty string. *)
Definition credential (env : gmap string string) (name : string) : option string :=
  match env !! name with
  | Some (String c s) => Some (String c s)
  | _ => None
  end.

Record content_block : Type := {
  type : string;
  text : option string      (* [JSON.stringify] may give [undefined] *)
}.

Record envelope : Type := {
  content : list content_block;
  details : gmap string jsval
}.

Definition text_block (s : string) : content_block :=
  {| type := "text"; text := Some s |}.

(** How a [switch] branch ends: [break] with the [result] assigned, or an
    early [return]. *)
Inductive completion : Type :=
  | Break (result : jsval)
  | Return (e : envelope).

(** [switch (action) { case label: ... }] compares with [===]. *)
Definition is_case (action : option string) (label : string) : bool :=
  match action with
  | Some a => String.eqb a label
  | None => false
  end.

(** An optional string parameter is absent: [!owner]. *)
Definition absent (o : option string) : bool := negb (truthy (of_opt o)).

(** ** The GitHub tool ([github-tool.ts]) *)

Module GitHub.
Section Tool.
Context (rt : runtime) (net : network).

(** The literals of [GitHubToolSchema.action]. *)
Definition actions : list string :=
  ["getRepo"; "listIssues"; "getIssue"; "createIssue"; "listPRs"; "getPR";
   "searchCode"; "searchRepos"; "getUser"; "listGists"].

Definition githubRequest (endpoint token method : string) (body : jsval) : M jsval :=
  response <- fetch net
    {| req_url := "https://api.github.com" +:+ endpoint;
       req_method := method;
       req_headers :=
         [("Authorization", "Bearer " +:+ token);
          ("Accept", "application/vnd.github+json");
          ("X-GitHub-Api-Version", "2022-11-28")]
         ++ (if truthy body then [("Content-Type", "application/json")] else []);
       req_body := if truthy body then JsonBody body else NoBody |} ;;
  if negb (resp_ok response) then
    error <- lift (resp_text response) ;;
    throw (Error ("GitHub API error (" +:+ decimal (resp_status response)
                  +:+ "): " +:+ error))
  else lift (resp_json response).

(** The guard every repository action starts with:
    [if (!owner || !repo) throw new Error(...)]. *)
Definition owner_and_repo_required (owner repo : option string) (action : string)
    (k : M completion) : M completion :=
  if absent owner || absent repo
  then throw (Error ("owner and repo are required for " +:+ action))
  else k.

(** The [switch] of [execute]. *)
Definition dispatch (params : gmap string jsval) (token : string)
    (action owner repo : option string) (state : string) : M completion :=
  let tpl o := template rt (of_opt o) in
  if is_case action "getRepo" then
    owner_and_repo_required owner repo "getRepo"
      (result <- githubRequest ("/repos/" +:+ tpl owner +:+ "/" +:+ tpl repo)
                   token "GET" VUndefined ;;
       ret (Break result))
  else if is_case action "listIssues" then
    owner_and_repo_required owner repo "listIssues"
      (result <- githubRequest
                   ("/repos/" +:+ tpl owner +:+ "/" +:+ tpl repo
                    +:+ "/issues?state=" +:+ state +:+ "&per_page=30")
                   token "GET" VUndefined ;;
       ret (Break result))
  else if is_case action "getIssue" then
    owner_and_repo_required owner repo "getIssue"
      (let number := param params "number" in
       if negb (truthy number)
       then throw (Error "number is required for getIssue")
       else
         result <- githubRequest
                     ("/repos/" +:+ tpl owner +:+ "/" +:+ tpl repo
                      +:+ "/issues/" +:+ template rt number)
                     token "GET" VUndefined ;;
         ret (Break result))
  else if is_case action "createIssue" then
    owner_and_repo_required owner repo "createIssue"
      (title <- lift (readStringParam params "title" true) ;;
       body <- lift (readStringParam params "body" false) ;;
       result <- githubRequest
                   ("/repos/" +:+ tpl owner +:+ "/" +:+ tpl repo +:+ "/issues")
                   token "POST"
                   (VObj [("title", of_opt title); ("body", of_opt body)]) ;;
       ret (Break result))
  else if is_case action "listPRs" then
    owner_and_repo_required owner repo "listPRs"
      (result <- githubRequest
                   ("/repos/" +:+ tpl owner +:+ "/" +:+ tpl repo
                    +:+ "/pulls?state=" +:+ state +:+ "&per_page=30")
                   token "GET" VUndefined ;;
       ret (Break result))
  else if is_case action "getPR" then
    owner_and_repo_required owner repo "getPR"
      (let number := param params "number" in
       if negb (truthy number)
       then throw (Error "number is required for getPR")
       else
         result <- githubRequest
                     ("/repos/" +:+ tpl owner +:+ "/" +:+ tpl repo
                      +:+ "/pulls/" +:+ template rt number)
                     token "GET" VUndefined ;;
         ret (Break result))
  else if is_case action "searchCode" then
    query <- lift (readStringParam params "query" true) ;;
    q <- lift (encodeURIComponent rt (tpl query)) ;;
    result <- githubRequest ("/search/code?q=" +:+ q +:+ "&per_page=30")
                token "GET" VUndefined ;;
    ret (Break result)
  else if is_case action "searchRepos" then
    query <- lift (readStringParam params "query" true) ;;
    q <- lift (encodeURIComponent rt (tpl query)) ;;
    result <- githubRequest ("/search/repositories?q=" +:+ q +:+ "&per_page=30")
                token "GET" VUndefined ;;
    ret (Break result)
  else if is_case action "getUser" then
    username <- lift (readStringParam params "username" false) ;;
    result <- (if absent username
               then githubRequest "/user" token "GET" VUndefined
               else githubRequest ("/users/" +:+ tpl username) token "GET" VUndefined) ;;
    ret (Break result)
  else if is_case action "listGists" then
    username <- lift (readStringParam params "username" false) ;;
    result <- (if absent username
               then githubRequest "/gists?per_page=30" token "GET" VUndefined
               else githubRequest ("/users/" +:+ tpl username +:+ "/gists?per_page=30")
                      token "GET" VUndefined) ;;
    ret (Break result)
  else
    ret (Return
      {| content := [text_block ("Unknown action: " +:+ tpl action)];
         details := {[ "error" := VStr "unknown_action" ]} |}).

Definition execute (_toolCallId : string) (env : gmap string string)
    (params : gmap string jsval) : M envelope :=
  action <- lift (readStringParam params "action" true) ;;
  match credential env "GITHUB_TOKEN" with
  | None =>
      ret {| content := [text_block "GitHub token not configured. Set GITHUB_TOKEN."];
             details := {[ "error" := VStr "missing_token" ]} |}
  | Some token =>
      try_catch
        (owner <- lift (readStringParam params "owner" false) ;;
         repo <- lift (readStringParam params "repo" false) ;;
         state <- lift (readStringParam params "state" false) ;;
         done <- dispatch params token action owner repo (or_default state "open") ;;
         match done with
         | Return e => ret e
         | Break result =>
             ret {| content := [{| type := "text"; text := JSON_stringify rt result |}];
                    details := {[ "action" := of_opt action; "success" := VBool true ]} |}
         end)
        (fun error =>
           let message := message_of error in
           ret {| content := [text_block ("GitHub error: " +:+ message)];
                  details := {[ "action" := of_opt action; "error" := VStr message ]} |})
  end.

End Tool.
End GitHub.

(** ** The ElevenLabs tool *)

Module ElevenLabs.
Section Tool.
Context (rt : runtime) (net : network).

(** The literals of [ElevenLabsToolSchema.action]. *)
Definition actions : list string :=
  ["textToSpeech"; "listVoices"; "getVoice"; "speechToSpeech"; "getModels";
   "getHistory"].

Definition DEFAULT_VOICE_ID : string := "21m00Tcm4TlvDq8ikWAM". (* Rachel *)
Definition DEFAULT_MODEL_ID : string := "eleven_multilingual_v2".

Definition has_body (body : payload) : bool :=
  match body with NoBody => false | _ => true end.

Definition elevenlabsRequest (endpoint apiKey method : string) (body : payload)
    (isFormData : bool) : M jsval :=
  let headers : list (string * string) :=
    ([("xi-api-key", apiKey)]
     ++ (if negb isFormData && has_body body
         then [("Content-Type", "application/json")] else []))%list in
  response <- fetch net
    {| req_url := "https://api.elevenlabs.io/v1" +:+ endpoint;
       req_method := method;
       req_headers := headers;
       req_body := body |} ;;
  if negb (resp_ok response) then
    error <- lift (resp_text response) ;;
    throw (Error ("ElevenLabs API error (" +:+ decimal (resp_status response)
                  +:+ "): " +:+ error))
  else
    (* Check if response is audio *)
    match resp_content_type response with
    | Some contentType =>
        if includes "audio" contentType then
          buffer <- lift (resp_bytes response) ;;
          ret (VObj [("audio", VStr (toBase64 rt buffer));
                     ("contentType", VStr contentType)])
        else lift (resp_json response)
    | None => lift (resp_json response)
    end.

(** The [switch] of [execute]. *)
Definition dispatch (params : gmap string jsval) (apiKey : string)
    (action : option string) : M completion :=
  if is_case action "textToSpeech" then
    text <- lift (readStringParam params "text" true) ;;
    voiceId <- lift (readStringParam params "voiceId" false) ;;
    let voiceId := or_default voiceId DEFAULT_VOICE_ID in
    modelId <- lift (readStringParam params "modelId" false) ;;
    let modelId := or_default modelId DEFAULT_MODEL_ID in
    let stability := nullish (param params "stability") (VNum (1 # 2)) in
    let similarityBoost := nullish (param params "similarityBoost") (VNum (3 # 4)) in
    let style := nullish (param params "style") (VNum 0) in
    outputFormat <- lift (readStringParam params "outputFormat" false) ;;
    let outputFormat := or_default outputFormat "mp3_44100_128" in
    result <- elevenlabsRequest
                ("/text-to-speech/" +:+ voiceId +:+ "?output_format=" +:+ outputFormat)
                apiKey "POST"
                (JsonBody (VObj
                   [("text", of_opt text);
                    ("model_id", VStr modelId);
                    ("voice_settings", VObj
                       [("stability", stability);
                        ("similarity_boost", similarityBoost);
                        ("style", style);
                        ("use_speaker_boost", VBool true)])]))
                false ;;
    (* If we got audio back, indicate it *)
    if has_audio result then
      contentType <- lift (get_prop rt result "contentType") ;;
      audio <- lift (get_prop rt result "audio") ;;
      preview <- lift (substring_0_100 rt audio) ;;
      ret (Return
        {| content :=
             [text_block ("Audio generated successfully (" +:+ template rt contentType
                          +:+ "). Base64 audio data: " +:+ preview +:+ "... (truncated)")];
           details := {[ "action" := of_opt action; "success" := VBool true;
                         "hasAudio" := VBool true ]} |})
    else ret (Break result)
  else if is_case action "listVoices" then
    result <- elevenlabsRequest "/voices" apiKey "GET" NoBody false ;;
    ret (Break result)
  else if is_case action "getVoice" then
    voiceId <- lift (readStringParam params "voiceId" true) ;;
    result <- elevenlabsRequest ("/voices/" +:+ template rt (of_opt voiceId))
                apiKey "GET" NoBody false ;;
    ret (Break result)
  else if is_case action "speechToSpeech" then
    audioUrl <- lift (readStringParam params "audioUrl" true) ;;
    voiceId <- lift (readStringParam params "voiceId" false) ;;
    let voiceId := or_default voiceId DEFAULT_VOICE_ID in
    modelId <- lift (readStringParam params "modelId" false) ;;
    let modelId := or_default modelId "eleven_english_sts_v2" in
    let stability := nullish (param params "stability") (VNum (1 # 2)) in
    let similarityBoost := nullish (param params "similarityBoost") (VNum (3 # 4)) in
    (* Fetch the audio file *)
    audioResponse <- fetch net
      {| req_url := template rt (of_opt audioUrl); req_method := "GET";
         req_headers := []; req_body := NoBody |} ;;
    if negb (resp_ok audioResponse) then
      throw (Error ("Failed to fetch audio: " +:+ decimal (resp_status audioResponse)))
    else
      audioBlob <- lift (resp_bytes audioResponse) ;;
      let formData :=
        [("audio", FieldFile audioBlob "audio.mp3");
         ("model_id", FieldText modelId);
         ("voice_settings", FieldJson (VObj
            [("stability", stability); ("similarity_boost", similarityBoost)]))] in
      result <- elevenlabsRequest ("/speech-to-speech/" +:+ voiceId)
                  apiKey "POST" (FormBody formData) true ;;
      if has_audio result then
        audio <- lift (get_prop rt result "audio") ;;
        preview <- lift (substring_0_100 rt audio) ;;
        ret (Return
          {| content :=
               [text_block ("Speech-to-speech conversion successful. Base64 audio: "
                            +:+ preview +:+ "... (truncated)")];
             details := {[ "action" := of_opt action; "success" := VBool true;
                           "hasAudio" := VBool true ]} |})
      else ret (Break result)
  else if is_case action "getModels" then
    result <- elevenlabsRequest "/models" apiKey "GET" NoBody false ;;
    ret (Break result)
  else if is_case action "getHistory" then
    result <- elevenlabsRequest "/history" apiKey "GET" NoBody false ;;
    ret (Break result)
  else
    ret (Return
      {| content := [text_block ("Unknown action: " +:+ template rt (of_opt action))];
         details := {[ "error" := VStr "unknown_action" ]} |}).

Definition execute (_toolCallId : string) (env : gmap string string)
    (params : gmap string jsval) : M envelope :=
  action <- lift (readStringParam params "action" true) ;;
  match credential env "ELEVENLABS_API_KEY" with
  | None =>
      ret {| content :=
               [text_block "ElevenLabs API key not configured. Set ELEVENLABS_API_KEY."];
             details := {[ "error" := VStr "missing_api_key" ]} |}
  | Some apiKey =>
      try_catch
        (done <- dispatch params apiKey action ;;
         match done with
         | Return e => ret e
         | Break result =>
             ret {| content := [{| type := "text"; text := JSON_stringify rt result |}];
                    details := {[ "action" := of_opt action; "success" := VBool true ]} |}
         end)
        (fun error =>
           let message := message_of error in
           ret {| content := [text_block ("ElevenLabs error: " +:+ message)];
                  details := {[ "action" := of_opt action; "error" := VStr message ]} |})
  end.

End Tool.
End ElevenLabs.

(** ** The Linear tool *)

Module Linear.
Section Tool.
Context (rt : runtime) (net : network).

(** The literals of [LinearToolSchema.action]. *)
Definition actions : list string :=
  ["listIssues"; "getIssue"; "createIssue"; "updateIssue"; "listProjects";
   "listTeams"; "searchIssues"].

Definition linearGraphQL (query : string) (variables : jsval) (apiKey : string)
  : M jsval :=
  response <- fetch net
    {| req_url := "https://api.linear.app/graphql";
       req_method := "POST";
       req_headers := [("Authorization", apiKey); ("Content-Type", "application/json")];
       req_body := JsonBody (VObj [("query", VStr query); ("variables", variables)]) |} ;;
  if negb (resp_ok response) then
    error <- lift (resp_text response) ;;
    throw (Error ("Linear API error (" +:+ decimal (resp_status response)
                  +:+ "): " +:+ error))
  else
    result <- lift (resp_json response) ;;
    errors <- lift (get_prop rt result "errors") ;;
    nonempty <- (if truthy errors
                 then len <- lift (get_prop rt errors "length") ;; ret (gt_zero rt len)
                 else ret false) ;;
    if nonempty then
      first <- lift (get_first rt errors) ;;
      message <- lift (get_prop rt first "message") ;;
      throw (Error ("Linear GraphQL error: " +:+ template rt message))
    else lift (get_prop rt result "data").

(** The GraphQL documents, as written in the source. *)
Definition listIssues_query : string :=
  "query($filter: IssueFilter) {
                issues(filter: $filter, first: 50) {
                  nodes {
                    id
                    title
                    description
                    state { name }
                    priority
                    assignee { name }
                    createdAt
                    updatedAt
                  }
                }
              }".

Definition getIssue_query : string :=
  "query($id: String!) {
                issue(id: $id) {
                  id
                  title
                  description
                  state { name }
                  priority
                  assignee { name }
                  team { name }
                  project { name }
                  comments {
                    nodes {
                      body
                      user { name }
                      createdAt
                    }
                  }
                  createdAt
                  updatedAt
                }
              }".

Definition createIssue_query : string :=
  "mutation($input: IssueCreateInput!) {
                issueCreate(input: $input) {
                  success
                  issue {
                    id
                    title
                    identifier
                    url
                  }
                }
              }".

Definition updateIssue_query : string :=
  "mutation($id: String!, $input: IssueUpdateInput!) {
                issueUpdate(id: $id, input: $input) {
                  success
                  issue {
                    id
                    title
                    state { name }
                  }
                }
              }".

Definition listProjects_query : string :=
  "query {
                projects(first: 50) {
                  nodes {
                    id
                    name
                    description
                    state
                    progress
                    targetDate
                  }
                }
              }".

Definition listTeams_query : string :=
  "query {
                teams {
                  nodes {
                    id
                    name
                    key
                    description
                  }
                }
              }".

Definition searchIssues_query : string :=
  "query($query: String!) {
                searchIssues(query: $query, first: 30) {
                  nodes {
                    id
                    title
                    identifier
                    state { name }
                    team { name }
                  }
                }
              }".

(** The [filter] string of [listIssues]: the second assignment overwrites
    the first. *)
Definition listIssues_filter (teamId projectId : option string) : string :=
  let filter := EmptyString in
  let filter :=
    if absent teamId then filter
    else "team: { id: { eq: " +:+ dquote +:+ template rt (of_opt teamId)
         +:+ dquote +:+ " } }" in
  let filter :=
    if absent projectId then filter
    else "project: { id: { eq: " +:+ dquote +:+ template rt (of_opt projectId)
         +:+ dquote +:+ " } }" in
  filter.

(** [filter ? JSON.parse(`{${filter}}`) : undefined]. *)
Definition listIssues_variable (filter : string) : res jsval :=
  if is_empty filter then Ok VUndefined
  else
    let text := "{" +:+ filter +:+ "}" in
    match JSON_parse text with
    | Some v => Ok v
    | None => Throw (Error (SyntaxError_message rt text))
    end.

(** [if (x) input.k = x], for the [input] of [updateIssue]. *)
Definition assign_if (o : option string) (k : string)
    (input : list (string * jsval)) : list (string * jsval) :=
  if absent o then input else obj_set input k (of_opt o).

(** The [switch] of [execute]. *)
Definition dispatch (params : gmap string jsval) (apiKey : string)
    (action : option string) : M completion :=
  if is_case action "listIssues" then
    teamId <- lift (readStringParam params "teamId" false) ;;
    projectId <- lift (readStringParam params "projectId" false) ;;
    let filter := listIssues_filter teamId projectId in
    variable <- lift (listIssues_variable filter) ;;
    result <- linearGraphQL listIssues_query (VObj [("filter", variable)]) apiKey ;;
    ret (Break result)
  else if is_case action "getIssue" then
    issueId <- lift (readStringParam params "issueId" true) ;;
    result <- linearGraphQL getIssue_query (VObj [("id", of_opt issueId)]) apiKey ;;
    ret (Break result)
  else if is_case action "createIssue" then
    teamId <- lift (readStringParam params "teamId" true) ;;
    title <- lift (readStringParam params "title" true) ;;
    description <- lift (readStringParam params "description" false) ;;
    let priority := param params "priority" in
    projectId <- lift (readStringParam params "projectId" false) ;;
    result <- linearGraphQL createIssue_query
                (VObj [("input", VObj
                   [("teamId", of_opt teamId);
                    ("title", of_opt title);
                    ("description", of_opt description);
                    ("priority", priority);
                    ("projectId", of_opt projectId)])])
                apiKey ;;
    ret (Break result)
  else if is_case action "updateIssue" then
    issueId <- lift (readStringParam params "issueId" true) ;;
    title <- lift (readStringParam params "title" false) ;;
    description <- lift (readStringParam params "description" false) ;;
    stateId <- lift (readStringParam params "stateId" false) ;;
    let priority := param params "priority" in
    let input := [] in
    let input := assign_if title "title" input in
    let input := assign_if description "description" input in
    let input := assign_if stateId "stateId" input in
    let input :=
      match priority with
      | VUndefined => input
      | _ => obj_set input "priority" priority
      end in
    result <- linearGraphQL updateIssue_query
                (VObj [("id", of_opt issueId); ("input", VObj input)]) apiKey ;;
    ret (Break result)
  else if is_case action "listProjects" then
    result <- linearGraphQL listProjects_query (VObj []) apiKey ;;
    ret (Break result)
  else if is_case action "listTeams" then
    result <- linearGraphQL listTeams_query (VObj []) apiKey ;;
    ret (Break result)
  else if is_case action "searchIssues" then
    query <- lift (readStringParam params "query" true) ;;
    result <- linearGraphQL searchIssues_query (VObj [("query", of_opt query)]) apiKey ;;
    ret (Break result)
  else
    ret (Return
      {| content := [text_block ("Unknown action: " +:+ template rt (of_opt action))];
         details := {[ "error" := VStr "unknown_action" ]} |}).

Definition execute (_toolCallId : string) (env : gmap string string)
    (params : gmap string jsval) : M envelope :=
  action <- lift (readStringParam params "action" true) ;;
  match credential env "LINEAR_API_KEY" with
  | None =>
      ret {| content := [text_block "Linear API key not configured. Set LINEAR_API_KEY."];
             details := {[ "error" := VStr "missing_api_key" ]} |}
  | Some apiKey =>
      try_catch
        (done <- dispatch params apiKey action ;;
         match done with
         | Return e => ret e
         | Break result =>
             ret {| content := [{| type := "text"; text := JSON_stringify rt result |}];
                    details := {[ "action" := of_opt action; "success" := VBool true ]} |}
         end)
        (fun error =>
           let message := message_of error in
           ret {| content := [text_block ("Linear error: " +:+ message)];
                  details := {[ "action" := of_opt action; "error" := VStr message ]} |})
  end.

End Tool.
End Linear.

(** ** The OpenAI tool *)

Module OpenAI.
Section Tool.
Context (rt : runtime) (net : network).

(** The literals of [OpenAIToolSchema.action]. *)
Definition actions : list string := ["chat"; "embedding"; "moderation"; "transcribe"].

Definition openaiRequest (endpoint apiKey : string) (body : jsval) : M jsval :=
  response <- fetch net
    {| req_url := "https://api.openai.com/v1" +:+ endpoint;
       req_method := "POST";
       req_headers := [("Authorization", "Bearer " +:+ apiKey);
                       ("Content-Type", "application/json")];
       req_body := JsonBody body |} ;;
  if negb (resp_ok response) then
    error <- lift (resp_text response) ;;
    throw (Error ("OpenAI API error (" +:+ decimal (resp_status response)
                  +:+ "): " +:+ error))
  else lift (resp_json response).

Definition chat_message (role : string) (content : option string) : jsval :=
  VObj [("role", VStr role); ("content", of_opt content)].

(** The [switch] of [execute]. *)
Definition dispatch (params : gmap string jsval) (apiKey : string)
    (action : option string) : M completion :=
  if is_case action "chat" then
    prompt <- lift (readStringParam params "prompt" true) ;;
    model <- lift (readStringParam params "model" false) ;;
    let model := or_default model "gpt-4o-mini" in
    systemPrompt <- lift (readStringParam params "systemPrompt" false) ;;
    let messages : list jsval := [] in
    let messages : list jsval :=
      if absent systemPrompt then messages
      else (messages ++ [chat_message "system" systemPrompt])%list in
    let messages : list jsval := (messages ++ [chat_message "user" prompt])%list in
    result <- openaiRequest "/chat/completions" apiKey
                (VObj [("model", VStr model); ("messages", VArr messages)]) ;;
    ret (Break result)
  else if is_case action "embedding" then
    text <- lift (readStringParam params "text" true) ;;
    model <- lift (readStringParam params "model" false) ;;
    let model := or_default model "text-embedding-3-small" in
    result <- openaiRequest "/embeddings" apiKey
                (VObj [("model", VStr model); ("input", of_opt text)]) ;;
    ret (Break result)
  else if is_case action "moderation" then
    text <- lift (readStringParam params "text" true) ;;
    result <- openaiRequest "/moderations" apiKey (VObj [("input", of_opt text)]) ;;
    ret (Break result)
  else if is_case action "transcribe" then
    audioUrl <- lift (readStringParam params "audioUrl" true) ;;
    (* Fetch audio and send to Whisper *)
    audioResponse <- fetch net
      {| req_url := template rt (of_opt audioUrl); req_method := "GET";
         req_headers := []; req_body := NoBody |} ;;
    if negb (resp_ok audioResponse) then
      throw (Error ("Failed to fetch audio: " +:+ decimal (resp_status audioResponse)))
    else
      audioBlob <- lift (resp_bytes audioResponse) ;;
      let formData :=
        [("file", FieldFile audioBlob "audio.mp3"); ("model", FieldText "whisper-1")] in
      response <- fetch net
        {| req_url := "https://api.openai.com/v1/audio/transcriptions";
           req_method := "POST";
           req_headers := [("Authorization", "Bearer " +:+ apiKey)];
           req_body := FormBody formData |} ;;
      if negb (resp_ok response) then
        error <- lift (resp_text response) ;;
        throw (Error ("Whisper API error (" +:+ decimal (resp_status response)
                      +:+ "): " +:+ error))
      else
        result <- lift (resp_json response) ;;
        ret (Break result)
  else
    ret (Return
      {| content := [text_block ("Unknown action: " +:+ template rt (of_opt action))];
         details := {[ "error" := VStr "unknown_action" ]} |}).

Definition execute (_toolCallId : string) (env : gmap string string)
    (params : gmap string jsval) : M envelope :=
  action <- lift (readStringParam params "action" true) ;;
  match credential env "OPENAI_API_KEY" with
  | None =>
      ret {| content := [text_block "OpenAI API key not configured. Set OPENAI_API_KEY."];
             details := {[ "error" := VStr "missing_api_key" ]} |}
  | Some apiKey =>
      try_catch
        (done <- dispatch params apiKey action ;;
         match done with
         | Return e => ret e
         | Break result =>
             ret {| content := [{| type := "text"; text := JSON_stringify rt result |}];
                    details := {[ "action" := of_opt action; "success" := VBool true ]} |}
         end)
        (fun error =>
           let message := message_of error in
           ret {| content := [text_block ("OpenAI error: " +:+ message)];
                  details := {[ "action" := of_opt action; "error" := VStr message ]} |})
  end.

End Tool.
End OpenAI.

(** ** The four tools together *)

Inductive tool : Type := LinearTool | GitHubTool | ElevenLabsTool | OpenAITool.

Definition execute (t : tool) (rt : runtime) (net : network)
  : string -> gmap string string -> gmap string jsval -> M envelope :=
  match t with
  | LinearTool => Linear.execute rt net
  | GitHubTool => GitHub.execute rt net
  | ElevenLabsTool => ElevenLabs.execute rt net
  | OpenAITool => OpenAI.execute rt net
  end.

Definition actions (t : tool) : list string :=
  match t with
  | LinearTool => Linear.actions
  | GitHubTool => GitHub.actions
  | ElevenLabsTool => ElevenLabs.actions
  | OpenAITool => OpenAI.actions
  end.

(** The environment variable each tool reads its credential from, and the
    [details.error] code it reports when the variable is not set. *)
Definition credential_variable (t : tool) : string :=
  match t with
  | LinearTool => "LINEAR_API_KEY"
  | GitHubTool => "GITHUB_TOKEN"
  | ElevenLabsTool => "ELEVENLABS_API_KEY"
  | OpenAITool => "OPENAI_API_KEY"
  end.

Definition missing_credential_code (t : tool) : string :=
  match t with
  | GitHubTool => "missing_token"
  | _ => "missing_api_key"
  end.

Definition provider (t : tool) : string :=
  match t with
  | LinearTool => "Linear"
  | GitHubTool => "GitHub"
  | ElevenLabsTool => "ElevenLabs"
  | OpenAITool => "OpenAI"
  end.

(** A string parameter is supplied with a non-empty value, or is missing
    (absent, empty or not a string). *)
Definition supplied (params : gmap string jsval) (key value : string) : Prop :=
  readStringParam params key false = Ok (Some value).

Definition omitted (params : gmap string jsval) (key : string) : Prop :=
  readStringParam params key false = Ok None.

(** The envelope of a caught error. *)
Definition error_envelope (t : tool) (action message : string) : envelope :=
  {| content := [text_block (provider t +:+ " error: " +:+ message)];
     details := {[ "action" := VStr action; "error" := VStr message ]} |}.

(** ** Fixtures for the examples: a runtime and two networks *)

Definition mock_runtime : runtime :=
  {| JSON_stringify := fun v => match v with VUndefined => None | _ => Some "{...}" end;
     ToString := fun _ => "[object Object]";
     ToNumber := fun _ => None;
     encodeURIComponent := fun s => Ok s;
     toBase64 := fun s => s;
     SyntaxError_message := fun _ => "Unexpected token in JSON";
     TypeError_message := fun _ k => "Cannot read properties (reading '" +:+ k +:+ "')" |}.

Definition mock_response (ok : bool) (status : Z) (body : string) : response :=
  {| resp_ok := ok;
     resp_status := status;
     resp_content_type := Some "application/json";
     resp_text := Ok body;
     resp_json := match JSON_parse body with
                  | Some v => Ok v
                  | None => Throw (Error "Unexpected token in JSON")
                  end;
     resp_bytes := Ok body |}.

(** Every request is answered [200] with an empty [data] object. *)
Definition network_ok : network :=
  fun _ => Ok (mock_response true 200 ("{" +:+ dquote +:+ "data" +:+ dquote +:+ ": {}}")).

(** Every request is answered [404 Not Found]. *)
Definition network_404 : network :=
  fun _ => Ok (mock_response false 404 "Not Found").

(** ** Required parameters *)

(** What an action requires of a parameter: a non-empty string (read with
    [readStringParam(..., { required: true })] or guarded by [!owner]), or
    a truthy value ([if (!number) throw ...]). *)
Inductive requirement : Type :=
  | RString (name : string)
  | RTruthy (name : string).

Definition requirement_name (r : requirement) : string :=
  match r with RString n | RTruthy n => n end.

Definition present (params : gmap string jsval) (r : requirement) : bool :=
  match r with
  | RString k =>
      match readStringParam params k false with
      | Ok (Some _) => true
      | _ => false
      end
  | RTruthy k => truthy (param params k)
  end.

(** The parameters each action requires, in the order in which the action
    checks them. *)
Definition required_parameters (t : tool) (action : string) : list requirement :=
  let a := Some action in
  match t with
  | GitHubTool =>
      if is_case a "getRepo" then [RString "owner"; RString "repo"]
      else if is_case a "listIssues" then [RString "owner"; RString "repo"]
      else if is_case a "getIssue" then [RString "owner"; RString "repo"; RTruthy "number"]
      else if is_case a "createIssue" then [RString "owner"; RString "repo"; RString "title"]
      else if is_case a "listPRs" then [RString "owner"; RString "repo"]
      else if is_case a "getPR" then [RString "owner"; RString "repo"; RTruthy "number"]
      else if is_case a "searchCode" then [RString "query"]
      else if is_case a "searchRepos" then [RString "query"]
      else []
  | LinearTool =>
      if is_case a "getIssue" then [RString "issueId"]
      else if is_case a "createIssue" then [RString "teamId"; RString "title"]
      else if is_case a "updateIssue" then [RString "issueId"]
      else if is_case a "searchIssues" then [RString "query"]
      else []
  | ElevenLabsTool =>
      if is_case a "textToSpeech" then [RString "text"]
      else if is_case a "getVoice" then [RString "voiceId"]
      else if is_case a "speechToSpeech" then [RString "audioUrl"]
      else []
  | OpenAITool =>
      if is_case a "chat" then [RString "prompt"]
      else if is_case a "embedding" then [RString "text"]
      else if is_case a "moderation" then [RString "text"]
      else if is_case a "transcribe" then [RString "audioUrl"]
      else []
  end.

(** The offending parameter: the first required one that is not there. *)
Definition first_missing (params : gmap string jsval) (reqs : list requirement)
  : option requirement :=
  List.find (fun r => negb (present params r)) reqs.

(** ** The request of [textToSpeech]

    The one outbound request of the action, as a function of the six
    values it settles on. *)
Definition textToSpeech_request (apiKey text voiceId modelId : string)
    (stability similarityBoost style : jsval) (outputFormat : string) : request :=
  {| req_url := "https://api.elevenlabs.io/v1/text-to-speech/" +:+ voiceId
                +:+ "?output_format=" +:+ outputFormat;
     req_method := "POST";
     req_headers := [("xi-api-key", apiKey); ("Content-Type", "application/json")];
     req_body :=
       JsonBody (VObj
         [("text", VStr text);
          ("model_id", VStr modelId);
          ("voice_settings", VObj
             [("stability", stability);
              ("similarity_boost", similarityBoost);
              ("style", style);
              ("use_speaker_boost", VBool true)])]) |}.

(** The request that fetches a remote audio resource. *)
Definition audio_fetch (audioUrl : string) : request :=
  {| req_url := audioUrl; req_method := "GET"; req_headers := []; req_body := NoBody |}.

(** ** Postconditions in the monad *)

(** Every value [m] returns satisfies [Q]. *)
Definition post {A} (m : M A) (Q : A -> Prop) : Prop :=
  forall tr a tr', m tr = (Ok a, tr') -> Q a.

(** The [details] of the envelope a recognised action may return from
    inside its [switch] branch (the audio actions). *)
Definition early_return (action : string) (c : completion) : Prop :=
  match c with
  | Break _ => True
  | Return e =>
      details e = {[ "action" := VStr action; "success" := VBool true;
                     "hasAudio" := VBool true ]}
  end.

(** The envelope of the [default] branch. *)
Definition unknown_action_envelope (action : string) : envelope :=
  {| content := [text_block ("Unknown action: " +:+ action)];
     details := {[ "error" := VStr "unknown_action" ]} |}.

(** What [details] holds when the call got as far as a recognised action:
    the action, and the outcome. *)
Definition outcome_details (action : string) (e : envelope) : Prop :=
  details e !! "action" = Some (VStr action)
  /\ (details e !! "success" = Some (VBool true)
      \/ exists message, details e !! "error" = Some (VStr message)).

(** ** The request of the Linear transport *)

Definition graphql_request (query : string) (variables : jsval) (apiKey : string)
  : request :=
  {| req_url := "https://api.linear.app/graphql";
     req_method := "POST";
     req_headers := [("Authorization", apiKey); ("Content-Type", "application/json")];
     req_body := JsonBody (VObj [("query", VStr query); ("variables", variables)]) |}.

(** The body [{"errors":[{"message":"Entity not found"}],"data":{"issue":null}}]. *)
Definition entity_not_found_body : string :=
  "{" +:+ dquote +:+ "errors" +:+ dquote +:+ ":[{" +:+ dquote +:+ "message" +:+ dquote
  +:+ ":" +:+ dquote +:+ "Entity not found" +:+ dquote +:+ "}]," +:+ dquote +:+ "data"
  +:+ dquote +:+ ":{" +:+ dquote +:+ "issue" +:+ dquote +:+ ":null}}".

(** Every request is answered [200] with that body. *)
Definition network_graphql_error : network :=
  fun _ => Ok (mock_response true 200 entity_not_found_body).

(** ** Requests issued *)

(** Whatever its outcome, [m] issues exactly the requests [rqs]. *)
Definition issues {A} (m : M A) (rqs : list request) : Prop :=
  forall tr, snd (m tr) = (tr ++ rqs)%list.

(** The two actions that fetch a remote audio resource and then upload
    it. *)
Definition two_step (t : tool) (action : string) : Prop :=
  (t = ElevenLabsTool /\ action = "speechToSpeech")
  \/ (t = OpenAITool /\ action = "transcribe").

(** ** The filter of [listIssues] *)

(** The fragment for a project, as the template literal writes it. *)
Definition project_fragment (projectId : string) : string :=
  "project: { id: { eq: " +:+ dquote +:+ projectId +:+ dquote +:+ " } }".

(** The text handed to [JSON.parse]. *)
Definition filter_text (filter : string) : string := "{" +:+ filter +:+ "}".

(** ** The happy path *)

(** [m] returns, and what it returns satisfies [Q]. *)
Definition succeeds {A} (m : M A) (Q : A -> Prop) : Prop :=
  forall tr, exists a tr', m tr = (Ok a, tr') /\ Q a.

(** A response the transport helpers accept: a success status, a body
    that can be read, and JSON that is an object with neither [errors] nor
    [audio]. *)
Definition healthy_response (r : response) : Prop :=
  resp_ok r = true
  /\ (exists bytes, resp_bytes r = Ok bytes)
  /\ (exists members, resp_json r = Ok (VObj members)
                      /\ obj_get members "errors" = None
                      /\ obj_get members "audio" = None).

(** Every request gets such a response, and [encodeURIComponent] accepts
    every query. *)
Definition healthy (rt : runtime) (net : network) : Prop :=
  (forall rq, exists r, net rq = Ok r /\ healthy_response r)
  /\ (forall s, exists s', encodeURIComponent rt s = Ok s').

(** The result of a transport helper either has no [audio], or is the
    base64 payload with its content type. *)
Definition audio_or_json (result : jsval) : Prop :=
  has_audio result = false
  \/ exists audio contentType,
       result = VObj [("audio", VStr audio); ("contentType", VStr contentType)].

(** The [details] of a success. *)
Definition success_details (action : string) (e : envelope) : Prop :=
  details e !! "action" = Some (VStr action)
  /\ details e !! "success" = Some (VBool true).

(** [listIssues] names neither a team nor a project. *)
Definition unfiltered (t : tool) (action : string) (params : gmap string jsval) : Prop :=
  t = LinearTool -> action = "listIssues" ->
  omitted params "teamId" /\ omitted params "projectId".

(** What a [switch] branch ends in on the happy path. *)
Definition completes (action : string) (c : completion) : Prop :=
  match c with
  | Break _ => True
  | Return e => success_details action e
  end.

(** ** Bounds and targets of the requests of a call *)

(** Whatever its outcome, [m] issues at most [n] requests. *)
Definition budget {A} (m : M A) (n : nat) : Prop :=
  forall tr, exists rqs, snd (m tr) = (tr ++ rqs)%list /\ (length rqs <= n)%nat.

(** Every request [m] issues satisfies [P]. *)
Definition sends {A} (m : M A) (P : request -> Prop) : Prop :=
  forall tr, Forall P tr -> Forall P (snd (m tr)).

(** The number of requests a call of a tool may issue. *)
Definition request_limit (t : tool) : nat :=
  match t with
  | LinearTool | GitHubTool => 1
  | ElevenLabsTool | OpenAITool => 2
  end.

(** Where a tool's API lives (scheme and host), and the header that
    carries its credential. *)
Definition provider_origin (t : tool) : string :=
  match t with
  | LinearTool => "https://api.linear.app"
  | GitHubTool => "https://api.github.com"
  | ElevenLabsTool => "https://api.elevenlabs.io"
  | OpenAITool => "https://api.openai.com"
  end.

Definition credential_header (t : tool) (key : string) : string * string :=
  match t with
  | LinearTool => ("Authorization", key)
  | GitHubTool | OpenAITool => ("Authorization", "Bearer " +:+ key)
  | ElevenLabsTool => ("xi-api-key", key)
  end.

(** A request to the tool's API: its URL is the provider's origin followed
    by a path (so the host is the provider's), and it carries the
    credential header. *)
Definition to_api (t : tool) (key : string) (rq : request) : Prop :=
  (exists path, req_url rq = provider_origin t +:+ String "/" path)
  /\ In (credential_header t key) (req_headers rq).

(** A request either goes to the tool's API, or is the fetch of the
    [audioUrl] argument, verbatim: a [GET] of that URL with no header and
    no body, so with nothing in it that the caller did not supply. *)
Definition confined (t : tool) (key : string) (params : gmap string jsval)
    (rq : request) : Prop :=
  to_api t key rq
  \/ (exists audioUrl, supplied params "audioUrl" audioUrl /\ rq = audio_fetch audioUrl).

(** ** Failing transports *)

(** [m] throws [e]. *)
Definition throws {A} (m : M A) (e : exn) : Prop :=
  forall tr, exists tr', m tr = (Throw e, tr').

(** Every request is answered with a status that is not [ok], and the
    body [body]. *)
Definition answers_error (net : network) (status : Z) (body : string) : Prop :=
  forall rq, exists r,
    net rq = Ok r /\ resp_ok r = false /\ resp_status r = status
    /\ resp_text r = Ok body.

(** Every request fails in transport, with the exception [e]. *)
Definition rejects (net : network) (e : exn) : Prop :=
  forall rq, net rq = Throw e.

(** [encodeURIComponent] accepts every query. *)
Definition encodes (rt : runtime) : Prop :=
  forall s, exists s', encodeURIComponent rt s = Ok s'.

(** The actions that start by fetching an audio URL. *)
Definition fetches_audio (t : tool) (action : string) : bool :=
  match t with
  | ElevenLabsTool => String.eqb action "speechToSpeech"
  | OpenAITool => String.eqb action "transcribe"
  | _ => false
  end.

(** The message of the error a non-[ok] answer turns into. *)
Definition http_error (t : tool) (action : string) (status : Z) (body : string)
  : string :=
  if fetches_audio t action
  then "Failed to fetch audio: " +:+ decimal status
  else provider t +:+ " API error (" +:+ decimal status +:+ "): " +:+ body.

(** ** Requests of the other actions *)

(** A [GET] of the GitHub API (no body, so no content type). *)
Definition github_get (token endpoint : string) : request :=
  {| req_url := "https://api.github.com" +:+ endpoint;
     req_method := "GET";
     req_headers := [("Authorization", "Bearer " +:+ token);
                     ("Accept", "application/vnd.github+json");
                     ("X-GitHub-Api-Version", "2022-11-28")];
     req_body := NoBody |}.

(** The collection [listIssues] and [listPRs] read. *)
Definition list_resource (action : string) : string :=
  if String.eqb action "listIssues" then "issues" else "pulls".

(** A JSON [POST] to the OpenAI API. *)
Definition openai_post (apiKey endpoint : string) (body : jsval) : request :=
  {| req_url := "https://api.openai.com/v1" +:+ endpoint;
     req_method := "POST";
     req_headers := [("Authorization", "Bearer " +:+ apiKey);
                     ("Content-Type", "application/json")];
     req_body := JsonBody body |}.

(** The multipart upload of [speechToSpeech]. *)
Definition speech_upload (apiKey voiceId modelId : string)
    (stability similarityBoost : jsval) (audio : string) : request :=
  {| req_url := "https://api.elevenlabs.io/v1/speech-to-speech/" +:+ voiceId;
     req_method := "POST";
     req_headers := [("xi-api-key", apiKey)];
     req_body :=
       FormBody
         [("audio", FieldFile audio "audio.mp3");
          ("model_id", FieldText modelId);
          ("voice_settings", FieldJson (VObj
             [("stability", stability); ("similarity_boost", similarityBoost)]))] |}.

(** The multipart upload of [transcribe]. *)
Definition whisper_upload (apiKey audio : string) : request :=
  {| req_url := "https://api.openai.com/v1/audio/transcriptions";
     req_method := "POST";
     req_headers := [("Authorization", "Bearer " +:+ apiKey)];
     req_body :=
       FormBody [("file", FieldFile audio "audio.mp3"); ("model", FieldText "whisper-1")] |}.

(** The text of the envelope of an audio result. *)
Definition audio_text (action contentType preview : string) : string :=
  if String.eqb action "textToSpeech"
  then "Audio generated successfully (" +:+ contentType +:+ "). Base64 audio data: "
       +:+ preview +:+ "... (truncated)"
  else "Speech-to-speech conversion successful. Base64 audio: "
       +:+ preview +:+ "... (truncated)".

(** An envelope holds one text block, and not both [success] and [error]. *)
Definition well_formed (e : envelope) : Prop :=
  (exists s, content e = [{| type := "text"; text := s |}])
  /\ (details e !! "success" = None \/ details e !! "error" = None).

(** What a value reads as when it is assigned only if it is there. *)
Definition sent_if_supplied (params : gmap string jsval) (key : string) : option jsval :=
  match readStringParam params key false with
  | Ok (Some s) => Some (VStr s)
  | _ => None
  end.

(** A [200] answer with 150 bytes of [audio/mpeg], and the network that
    gives it to every request. *)
Definition audio_response : response :=
  {| resp_ok := true;
     resp_status := 200;
     resp_content_type := Some "audio/mpeg";
     resp_text := Ok (string_of_list_ascii (repeat "A"%char 150));
     resp_json := Throw (Error "Unexpected token in JSON");
     resp_bytes := Ok (string_of_list_ascii (repeat "A"%char 150)) |}.

Definition network_audio : network := fun _ => Ok audio_response.

(** What a [switch] branch may end in, for an envelope to be well formed. *)
Definition well_formed_completion (c : completion) : Prop :=
  match c with
  | Break _ => True
  | Return e => well_formed e
  end.

(** The [errors] member of a GraphQL body reports nothing: it is absent,
    falsy, or an empty array. *)
Definition no_errors (members : list (string * jsval)) : Prop :=
  truthy (default VUndefined (obj_get members "errors")) = false
  \/ obj_get members "errors" = Some (VArr []).

(** The fetch of the audio succeeds, the upload is answered [500]. *)
Definition network_upload_down : network :=
  fun rq =>
    if String.eqb (req_method rq) "GET" then Ok audio_response
    else Ok (mock_response false 500 "overloaded").

(** ** Actions that only read *)

(** A [GET] without a body. *)
Definition plain_get (rq : request) : Prop :=
  req_method rq = "GET" /\ req_body rq = NoBody.

(** A GraphQL request whose document is a [query], not a [mutation]. *)
Definition graphql_query_only (rq : request) : Prop :=
  exists document variables,
    req_body rq = JsonBody (VObj [("query", VStr document); ("variables", variables)])
    /\ String.prefix "query" document = true.

(** ** Errors reported when the transport fails *)

(** An optional string parameter, as read. *)
Definition read_optional (params : gmap string jsval) (key : string) : option string :=
  match readStringParam params key false with
  | Ok o => o
  | Throw _ => None
  end.

(** The text [listIssues] hands to [JSON.parse] for these arguments. *)
Definition listIssues_text (rt : runtime) (params : gmap string jsval) : string :=
  filter_text (Linear.listIssues_filter rt (read_optional params "teamId")
                 (read_optional params "projectId")).

(** The one call that fails before its request: [listIssues] with a team
    or a project, in [JSON.parse]. *)
Definition fails_before_request (rt : runtime) (t : tool) (action : string)
    (params : gmap string jsval) : bool :=
  match t with
  | LinearTool =>
      String.eqb action "listIssues"
      && negb (is_empty (Linear.listIssues_filter rt (read_optional params "teamId")
                           (read_optional params "projectId")))
  | _ => false
  end.

(** The error a call reports when its transport fails with [transport]. *)
Definition reported_error (rt : runtime) (t : tool) (action : string)
    (params : gmap string jsval) (transport : string) : string :=
  if fails_before_request rt t action params
  then SyntaxError_message rt (listIssues_text rt params)
  else transport.

(** A runtime whose [SyntaxError] quotes the text it was given. *)
Definition echo_runtime : runtime :=
  {| JSON_stringify := JSON_stringify mock_runtime;
     ToString := ToString mock_runtime;
     ToNumber := ToNumber mock_runtime;
     encodeURIComponent := encodeURIComponent mock_runtime;
     toBase64 := toBase64 mock_runtime;
     SyntaxError_message := fun text => "Unexpected token in JSON: " +:+ text;
     TypeError_message := TypeError_message mock_runtime |}.

(** * Properties *)

(** ** [JSON.parse] is total

    The fuel [json_fuel] is enough for every text: a [None] of
    [JSON_parse] is a syntax error, never a parse cut short. *)

Lemma skip_ws_length (s : string) : (String.length (skip_ws s) <= String.length s)%nat.
Proof.
  induction s as [| c s IH]; cbn [skip_ws]; [lia |].
  destruct (is_ws c); cbn [String.length]; lia.
Qed.

Lemma skip_ws_cons (s : string) (c : ascii) (r : string) :
  skip_ws s = String c r -> (String.length r < String.length s)%nat.
Proof.
  intros H. pose proof (skip_ws_length s) as Hl. rewrite H in Hl.
  cbn [String.length] in Hl. lia.
Qed.

Lemma parse_chars_length_bounded (n : nat) :
  forall s k r, (String.length s <= n)%nat -> parse_chars s = Some (k, r) ->
                (String.length r < String.length s)%nat.
Proof.
  induction n as [| n IH]; intros s k r Hn H.
  - destruct s; [discriminate H | cbn [String.length] in Hn; lia].
  - destruct s as [| c s]; [discriminate H |].
    cbn [parse_chars String.length] in *.
    repeat match type of H with
           | context [match ?x with _ => _ end] =>
               let E := fresh "E" in
               destruct x eqn:E; cbn [String.length] in *; try discriminate H
           end;
      inversion H; subst; clear H;
      repeat match goal with
             | E : parse_chars ?x = Some _ |- _ =>
                 apply IH in E; [| cbn [String.length] in *; lia]
             end;
      cbn [String.length] in *; lia.
Qed.

Lemma parse_chars_length (s k r : string) :
  parse_chars s = Some (k, r) -> (String.length r < String.length s)%nat.
Proof. apply (parse_chars_length_bounded (String.length s)). lia. Qed.

Lemma parse_digits_length (s : string) :
  forall acc count v k r,
    parse_digits s acc count = (v, k, r) -> (String.length r <= String.length s)%nat.
Proof.
  induction s as [| c s IH]; intros acc count v k r H; cbn [parse_digits] in H.
  - inversion H. lia.
  - destruct (digit_of c).
    + apply IH in H. cbn [String.length]. lia.
    + inversion H. lia.
Qed.

Lemma parse_fraction_length (s : string) (f k : Z) (r : string) :
  parse_fraction s = Some (f, k, r) -> (String.length r <= String.length s)%nat.
Proof.
  unfold parse_fraction. destruct s as [| c s]; [intros H; inversion H; lia |].
  destruct (nat_of_ascii c =? 46)%nat.
  - destruct (parse_digits s 0 0) as [[f' k'] r'] eqn:E.
    apply parse_digits_length in E.
    destruct (k' =? 0); intros H; inversion H; subst. cbn [String.length]. lia.
  - intros H; inversion H. lia.
Qed.

Lemma parse_exponent_length (s : string) (e : Z) (r : string) :
  parse_exponent s = Some (e, r) -> (String.length r <= String.length s)%nat.
Proof.
  unfold parse_exponent. destruct s as [| c s]; [intros H; inversion H; lia |].
  destruct (_ || _).
  - destruct s as [| c' s1].
    + cbn. intros H; inversion H.
    + destruct (nat_of_ascii c' =? 45)%nat; [| destruct (nat_of_ascii c' =? 43)%nat];
        match goal with |- context [parse_digits ?x 0 0] =>
          destruct (parse_digits x 0 0) as [[e' k'] r'] eqn:E end;
        apply parse_digits_length in E;
        destruct (k' =? 0); intros H; inversion H; subst;
        cbn [String.length] in *; lia.
  - intros H; inversion H. lia.
Qed.

Lemma parse_number_length (s : string) (v : jsval) (r : string) :
  parse_number s = POk v r -> (String.length r < String.length s)%nat.
Proof.
  unfold parse_number.
  destruct s as [| c s].
  - discriminate.
  - destruct (nat_of_ascii c =? 45)%nat.
    + destruct s as [| c1 s1]; [discriminate |].
      destruct (digit_of c1); [| discriminate].
      destruct (if z =? 0 then (0, 1, s1) else parse_digits s1 z 1) as [[i k0] s2] eqn:E.
      assert (String.length s2 <= String.length s1)%nat as H2.
      { destruct (z =? 0); [inversion E; lia | now apply parse_digits_length in E]. }
      destruct (parse_fraction s2) as [[[f k] s3] |] eqn:Ef; [| discriminate].
      apply parse_fraction_length in Ef.
      destruct (parse_exponent s3) as [[e s4] |] eqn:Ee; [| discriminate].
      apply parse_exponent_length in Ee.
      intros H; inversion H; subst. cbn [String.length]. lia.
    + destruct (digit_of c); [| discriminate].
      destruct (if z =? 0 then (0, 1, s) else parse_digits s z 1) as [[i k0] s2] eqn:E.
      assert (String.length s2 <= String.length s)%nat as H2.
      { destruct (z =? 0); [inversion E; lia | now apply parse_digits_length in E]. }
      destruct (parse_fraction s2) as [[[f k] s3] |] eqn:Ef; [| discriminate].
      apply parse_fraction_length in Ef.
      destruct (parse_exponent s3) as [[e s4] |] eqn:Ee; [| discriminate].
      apply parse_exponent_length in Ee.
      intros H; inversion H; subst. cbn [String.length]. lia.
Qed.

Lemma substring_length (s : string) :
  forall n m, (String.length (String.substring n m s) <= m)%nat.
Proof.
  induction s as [| c s IH]; intros [| n] [| m]; cbn [String.substring String.length];
    try lia.
  - specialize (IH 0%nat m). lia.
  - apply IH.
  - apply IH.
Qed.

Lemma take_literal_length (lit : string) (v0 : jsval) (s : string) (v : jsval) (r : string) :
  (0 < String.length lit)%nat -> (0 < String.length s)%nat ->
  take_literal lit v0 s = POk v r -> (String.length r < String.length s)%nat.
Proof.
  intros Hl Hs. unfold take_literal. destruct (String.prefix lit s); [| discriminate].
  intros H; inversion H; subst.
  pose proof (substring_length s (String.length lit) (String.length s - String.length lit)).
  lia.
Qed.

Lemma parse_number_fuel (s : string) : parse_number s <> PFuel.
Proof.
  unfold parse_number.
  repeat match goal with
         | |- context [match ?x with _ => _ end] => destruct x
         | |- context [if ?x then _ else _] => destruct x
         end; discriminate.
Qed.

Lemma take_literal_fuel (lit : string) (v : jsval) (s : string) :
  take_literal lit v s <> PFuel.
Proof. unfold take_literal. destruct (String.prefix lit s); discriminate. Qed.

(** Split a parser equation on every test the parser makes. *)
Ltac parser_cases H :=
  repeat match type of H with
         | context [match ?x with _ => _ end] =>
             let E := fresh "E" in destruct x eqn:E; try discriminate H
         end.

Ltac length_facts :=
  repeat match goal with
         | E : skip_ws _ = String _ _ |- _ => apply skip_ws_cons in E
         | E : parse_chars _ = Some _ |- _ => apply parse_chars_length in E
         | E : parse_number _ = POk _ _ |- _ => apply parse_number_length in E
         | E : take_literal _ _ _ = POk _ _ |- _ =>
             apply take_literal_length in E; [| cbn; lia | cbn; lia]
         end;
  cbn [String.length] in *.

(** Every parser consumes at least one character of what it is given. *)
Lemma parsers_consume (n : nat) :
  (forall s v r, parse_value n s = POk v r -> (String.length r < String.length s)%nat)
  /\ (forall s acc v r, parse_members n s acc = POk v r ->
                         (String.length r < String.length s)%nat)
  /\ (forall s acc v r, parse_elements n s acc = POk v r ->
                         (String.length r < String.length s)%nat).
Proof.
  induction n as [| n (IHv & IHm & IHe)].
  - repeat split; intros; discriminate.
  - repeat split.
    + intros s v r H. cbn [parse_value] in H. parser_cases H;
        try (inversion H; subst; clear H);
        repeat match goal with
               | E : parse_members n _ _ = POk _ _ |- _ => apply IHm in E
               | E : parse_elements n _ _ = POk _ _ |- _ => apply IHe in E
               end;
        length_facts; lia.
    + intros s acc v r H. cbn [parse_members] in H. parser_cases H;
        try (inversion H; subst; clear H);
        repeat match goal with
               | E : parse_value n _ = POk _ _ |- _ => apply IHv in E
               | E : parse_members n _ _ = POk _ _ |- _ => apply IHm in E
               end;
        length_facts; lia.
    + intros s acc v r H. cbn [parse_elements] in H. parser_cases H;
        try (inversion H; subst; clear H);
        repeat match goal with
               | E : parse_value n _ = POk _ _ |- _ => apply IHv in E
               | E : parse_elements n _ _ = POk _ _ |- _ => apply IHe in E
               end;
        length_facts; lia.
Qed.

Ltac consumed n :=
  repeat match goal with
         | E : parse_value n _ = POk _ _ |- _ => apply (proj1 (parsers_consume n)) in E
         end;
  length_facts.

Ltac out_of_fuel IHv IHm IHe :=
  match goal with
  | E : parse_value _ _ = PFuel |- _ => apply IHv in E; [exact E | lia]
  | E : parse_members _ _ _ = PFuel |- _ => apply IHm in E; [exact E | lia]
  | E : parse_elements _ _ _ = PFuel |- _ => apply IHe in E; [exact E | lia]
  | E : parse_number _ = PFuel |- _ => now apply parse_number_fuel in E
  | E : take_literal _ _ _ = PFuel |- _ => now apply take_literal_fuel in E
  end.

(** Twice the length of the text, and one or two more, is fuel enough. *)
Lemma parsers_fuel (n : nat) :
  (forall s, (2 * String.length s + 1 <= n)%nat -> parse_value n s <> PFuel)
  /\ (forall s acc, (2 * String.length s + 2 <= n)%nat -> parse_members n s acc <> PFuel)
  /\ (forall s acc, (2 * String.length s + 2 <= n)%nat -> parse_elements n s acc <> PFuel).
Proof.
  induction n as [| n (IHv & IHm & IHe)].
  - repeat split; intros; lia.
  - repeat split.
    + intros s Hn H. cbn [parse_value] in H. parser_cases H;
        consumed n; out_of_fuel IHv IHm IHe.
    + intros s acc Hn H. cbn [parse_members] in H. parser_cases H;
        consumed n; out_of_fuel IHv IHm IHe.
    + intros s acc Hn H. cbn [parse_elements] in H. parser_cases H;
        consumed n; out_of_fuel IHv IHm IHe.
Qed.

(** [JSON.parse] never runs out of fuel. *)
Lemma parse_text_fuel (text : string) : parse_text (json_fuel text) text <> PFuel.
Proof.
  unfold parse_text, json_fuel.
  destruct (parse_value _ text) as [v rest | |] eqn:E.
  - destruct (skip_ws rest); discriminate.
  - discriminate.
  - apply (proj1 (parsers_fuel _)) in E; [contradiction | lia].
Qed.

(** So [JSON_parse] is [None] exactly on a syntax error. *)
Lemma JSON_parse_None (text : string) :
  JSON_parse text = None <-> parse_text (json_fuel text) text = PSyntax.
Proof.
  unfold JSON_parse. pose proof (parse_text_fuel text) as Hf.
  destruct (parse_text (json_fuel text) text); split; congruence.
Qed.

(** ** The monad *)

Lemma post_ret {A} (a : A) (Q : A -> Prop) : Q a -> post (ret a) Q.
Proof. intros HQ tr a' tr' H. inversion H. now subst. Qed.

Lemma post_throw {A} (e : exn) (Q : A -> Prop) : post (throw e) Q.
Proof. intros tr a tr' H. discriminate H. Qed.

Lemma post_bind {A B} (m : M A) (k : A -> M B) (Q : B -> Prop) :
  (forall a, post (k a) Q) -> post (bind m k) Q.
Proof.
  intros Hk tr b tr'. unfold bind.
  destruct (m tr) as [[a | e] tr1]; [apply Hk | discriminate].
Qed.

Lemma post_bind_strong {A B} (m : M A) (k : A -> M B) (P : A -> Prop) (Q : B -> Prop) :
  post m P -> (forall a, P a -> post (k a) Q) -> post (bind m k) Q.
Proof.
  intros Hm Hk tr b tr'. unfold bind.
  destruct (m tr) as [[a | e] tr1] eqn:E; [| discriminate].
  apply Hk. eapply Hm, E.
Qed.

Lemma post_try_catch {A} (body : M A) (handler : exn -> M A) (Q : A -> Prop) :
  post body Q -> (forall e, post (handler e) Q) -> post (try_catch body handler) Q.
Proof.
  intros Hb Hh tr a tr'. unfold try_catch.
  destruct (body tr) as [[a0 | e] tr1] eqn:E.
  - intros H. inversion H. subst. eapply Hb, E.
  - apply Hh.
Qed.

(** A [try] whose handler returns always returns. *)
Lemma try_catch_returns {A} (body : M A) (handler : exn -> M A) (tr : list request) :
  (forall e tr1, exists a tr2, handler e tr1 = (Ok a, tr2)) ->
  exists a tr', try_catch body handler tr = (Ok a, tr').
Proof.
  intros Hh. unfold try_catch.
  destruct (body tr) as [[a | e] tr1]; eauto.
Qed.

(** ** Reading parameters *)

Lemma readStringParam_required_supplied params key value :
  supplied params key value -> readStringParam params key true = Ok (Some value).
Proof.
  unfold supplied, readStringParam.
  destruct (params !! key) as [[| | | | [|c s] | |] |]; congruence.
Qed.

Lemma readStringParam_optional params key :
  exists o, readStringParam params key false = Ok o /\ absent o = match o with Some _ => false | None => true end.
Proof.
  unfold readStringParam.
  destruct (params !! key) as [[| | | | [|c s] | |] |]; eauto.
Qed.

Lemma supplied_nonempty params key value :
  supplied params key value -> is_empty value = false.
Proof.
  unfold supplied, readStringParam.
  destruct (params !! key) as [[| | | | [|c s] | |] |]; intros H; inversion H; reflexivity.
Qed.

Lemma bind_lift_ok {A B} (a : A) (k : A -> M B) : bind (lift (Ok a)) k = k a.
Proof. reflexivity. Qed.

Lemma bind_lift_throw {A B} (e : exn) (k : A -> M B) : bind (lift (Throw e)) k = throw e.
Proof. reflexivity. Qed.

Lemma bind_ret {A B} (a : A) (k : A -> M B) : bind (ret a) k = k a.
Proof. reflexivity. Qed.

Lemma credential_unset env name : env !! name = None -> credential env name = None.
Proof. unfold credential. now intros ->. Qed.

(** ** The boundary of [execute] *)

(** C1 (as amended). The read of [action] comes before the [try] block:
    when it succeeds, [execute] returns an envelope on every path, whatever
    the environment, the network and the other arguments are; when it
    fails (no [action], an empty one, or one that is not a string), the
    exception it throws leaves [execute], before any request. *)
Theorem execute_returns_envelope (t : tool) (rt : runtime) (net : network)
    (id : string) (env : gmap string string) (params : gmap string jsval) :
  match readStringParam params "action" true with
  | Ok _ => exists e tr, run (execute t rt net id env params) = (Ok e, tr)
  | Throw x => run (execute t rt net id env params) = (Throw x, [])
  end.
Proof.
  unfold run.
  destruct t; cbn [execute];
    unfold Linear.execute, GitHub.execute, ElevenLabs.execute, OpenAI.execute;
    (destruct (readStringParam params "action" true) as [action | x];
     [ rewrite bind_lift_ok;
       match goal with |- context [credential ?e ?n] => destruct (credential e n) end;
       [ apply try_catch_returns; intros e tr1; unfold ret; eauto
       | unfold ret; eauto ]
     | rewrite bind_lift_throw; reflexivity ]).
Qed.

(** C1 (counterexample). Called without an [action], the GitHub tool
    raises instead of returning an envelope. *)
Lemma execute_without_action_raises :
  run (execute GitHubTool mock_runtime network_ok "call-1"
         {[ "GITHUB_TOKEN" := "ghp_token" ]} ∅)
    = (Throw (Error "action required"), [])
  /\ ~ exists e tr,
        run (execute GitHubTool mock_runtime network_ok "call-1"
               {[ "GITHUB_TOKEN" := "ghp_token" ]} ∅) = (Ok e, tr).
Proof.
  split; [reflexivity |].
  intros (e & tr & H). vm_compute in H. discriminate H.
Qed.

(** ** Missing credential *)

(** C4. With the credential variable of a tool unset, a call that names an
    action returns the missing-credential envelope: [details] is
    [{error: "missing_api_key"}] (["missing_token"] for GitHub), the text
    names the variable to set, and no request has been issued. *)
Theorem missing_credential_short_circuits (t : tool) (rt : runtime) (net : network)
    (id : string) (env : gmap string string) (params : gmap string jsval)
    (action : string) :
  supplied params "action" action ->
  env !! credential_variable t = None ->
  exists msg,
    run (execute t rt net id env params)
      = (Ok {| content := [text_block msg];
               details := {[ "error" := VStr (missing_credential_code t) ]} |}, [])
    /\ includes (credential_variable t) msg = true
    /\ includes "missing" (missing_credential_code t) = true.
Proof.
  intros Ha Henv. apply readStringParam_required_supplied in Ha.
  unfold run.
  destruct t; cbn [execute credential_variable missing_credential_code] in *;
    unfold Linear.execute, GitHub.execute, ElevenLabs.execute, OpenAI.execute;
    rewrite Ha, bind_lift_ok, (credential_unset _ _ Henv);
    eexists; (split; [reflexivity | split; reflexivity]).
Qed.

Lemma missing_credential_short_circuits_witness :
  exists msg,
    run (execute GitHubTool mock_runtime network_ok "call-1" ∅
           {[ "action" := VStr "getRepo" ]})
      = (Ok {| content := [text_block msg];
               details := {[ "error" := VStr "missing_token" ]} |}, [])
    /\ includes "GITHUB_TOKEN" msg = true
    /\ includes "missing" "missing_token" = true.
Proof.
  apply (missing_credential_short_circuits GitHubTool mock_runtime network_ok
           "call-1" ∅ {[ "action" := VStr "getRepo" ]} "getRepo");
    reflexivity.
Defined.

(** ** The shape of [details] *)

(** Decide the [case] labels of a [switch] on a literal action. *)
Ltac eval_cases :=
  repeat match goal with
         | |- context [is_case (Some ?a) ?l] =>
             let b := eval vm_compute in (is_case (Some a) l) in
             change (is_case (Some a) l) with b
         end;
  cbv iota.

(** Walk a branch of a [switch] down to the completions it can end in. *)
Ltac post_walk :=
  repeat first
    [ apply post_throw
    | apply post_bind; intros
    | match goal with
      | |- post (if ?b then _ else _) _ => destruct b
      end ].

(** Enumerate the actions of a schema. *)
Ltac each_action H :=
  cbn in H; repeat (destruct H as [<- | H]; [| try contradiction]).

Lemma is_case_unknown (action : string) (labels : list string) (l : string) :
  ~ In action labels -> In l labels -> is_case (Some action) l = false.
Proof.
  intros Hn Hl. cbn [is_case].
  destruct (String.eqb_spec action l); [subst; tauto | reflexivity].
Qed.

Ltac skip_cases Hn :=
  repeat (rewrite (is_case_unknown _ _ _ Hn) by (cbn; tauto)).

Lemma GitHub_dispatch_known rt net params token action owner repo state :
  In action GitHub.actions ->
  post (GitHub.dispatch rt net params token (Some action) owner repo state)
       (early_return action).
Proof.
  intros H. each_action H;
    unfold GitHub.dispatch, GitHub.owner_and_repo_required; eval_cases;
    post_walk; now apply post_ret.
Qed.

Lemma GitHub_dispatch_unknown rt net params token action owner repo state :
  ~ In action GitHub.actions ->
  GitHub.dispatch rt net params token (Some action) owner repo state
    = ret (Return (unknown_action_envelope action)).
Proof. intros Hn. unfold GitHub.dispatch. now skip_cases Hn. Qed.

Lemma Linear_dispatch_known rt net params key action :
  In action Linear.actions ->
  post (Linear.dispatch rt net params key (Some action)) (early_return action).
Proof.
  intros H. each_action H; unfold Linear.dispatch; eval_cases;
    post_walk; now apply post_ret.
Qed.

Lemma Linear_dispatch_unknown rt net params key action :
  ~ In action Linear.actions ->
  Linear.dispatch rt net params key (Some action)
    = ret (Return (unknown_action_envelope action)).
Proof. intros Hn. unfold Linear.dispatch. now skip_cases Hn. Qed.

Lemma ElevenLabs_dispatch_known rt net params key action :
  In action ElevenLabs.actions ->
  post (ElevenLabs.dispatch rt net params key (Some action)) (early_return action).
Proof.
  intros H. each_action H; unfold ElevenLabs.dispatch; eval_cases;
    post_walk; now apply post_ret.
Qed.

Lemma ElevenLabs_dispatch_unknown rt net params key action :
  ~ In action ElevenLabs.actions ->
  ElevenLabs.dispatch rt net params key (Some action)
    = ret (Return (unknown_action_envelope action)).
Proof. intros Hn. unfold ElevenLabs.dispatch. now skip_cases Hn. Qed.

Lemma OpenAI_dispatch_known rt net params key action :
  In action OpenAI.actions ->
  post (OpenAI.dispatch rt net params key (Some action)) (early_return action).
Proof.
  intros H. each_action H; unfold OpenAI.dispatch; eval_cases;
    post_walk; now apply post_ret.
Qed.

Lemma OpenAI_dispatch_unknown rt net params key action :
  ~ In action OpenAI.actions ->
  OpenAI.dispatch rt net params key (Some action)
    = ret (Return (unknown_action_envelope action)).
Proof. intros Hn. unfold OpenAI.dispatch. now skip_cases Hn. Qed.

Lemma after_switch_post rt action (d : M completion) :
  post d (early_return action) ->
  post (done <- d ;;
        match done with
        | Return e => ret e
        | Break result =>
            ret {| content := [{| type := "text"; text := JSON_stringify rt result |}];
                   details := {[ "action" := of_opt (Some action);
                                 "success" := VBool true ]} |}
        end)
       (outcome_details action).
Proof.
  intros Hd. eapply post_bind_strong; [exact Hd |].
  intros [result | e] He; apply post_ret.
  - split; [reflexivity | left; reflexivity].
  - cbn in He. unfold outcome_details. rewrite He. split; [reflexivity | left; reflexivity].
Qed.

Lemma handler_post t action (error : exn) :
  post (let message := message_of error in
        ret {| content := [text_block (provider t +:+ " error: " +:+ message)];
               details := {[ "action" := of_opt (Some action);
                             "error" := VStr message ]} |})
       (outcome_details action).
Proof. apply post_ret. split; [reflexivity | right; eexists; reflexivity]. Qed.

Lemma outcome_details_shape action e (known credentialed : Prop) :
  known -> credentialed -> outcome_details action e ->
  (is_Some (details e !! "success") \/ is_Some (details e !! "error"))
  /\ (is_Some (details e !! "action") <-> credentialed /\ known)
  /\ (is_Some (details e !! "action") -> details e !! "action" = Some (VStr action)).
Proof.
  intros Hk Hc [Ha Ho]. split; [| split].
  - destruct Ho as [-> | [m ->]]; eauto.
  - rewrite Ha. split; eauto.
  - intros _. exact Ha.
Qed.

Lemma error_only_shape action code e (known credentialed : Prop) :
  ~ (credentialed /\ known) -> details e = {[ "error" := VStr code ]} ->
  (is_Some (details e !! "success") \/ is_Some (details e !! "error"))
  /\ (is_Some (details e !! "action") <-> credentialed /\ known)
  /\ (is_Some (details e !! "action") -> details e !! "action" = Some (VStr action)).
Proof.
  intros Hn ->. split; [| split].
  - right. eexists. reflexivity.
  - split; [intros [x Hx]; discriminate Hx | tauto].
  - intros [x Hx]. discriminate Hx.
Qed.

(** C2 (as amended). Whatever envelope a call returns, its [details] holds
    [success] or [error]; it holds [action] exactly when the credential is
    set and the action is one of the tool's, and then [action] is the
    requested one.  (The missing-credential and unknown-action envelopes
    carry [error] alone.) *)
Theorem details_shape (t : tool) (rt : runtime) (net : network) (id : string)
    (env : gmap string string) (params : gmap string jsval) (action : string)
    (e : envelope) (tr : list request) :
  supplied params "action" action ->
  run (execute t rt net id env params) = (Ok e, tr) ->
  (is_Some (details e !! "success") \/ is_Some (details e !! "error"))
  /\ (is_Some (details e !! "action")
      <-> is_Some (credential env (credential_variable t)) /\ In action (actions t))
  /\ (is_Some (details e !! "action") -> details e !! "action" = Some (VStr action)).
Proof.
  intros Ha Hrun. apply readStringParam_required_supplied in Ha.
  unfold run in Hrun.
  destruct t; cbn [execute credential_variable actions] in *;
    unfold Linear.execute, GitHub.execute, ElevenLabs.execute, OpenAI.execute in Hrun;
    rewrite Ha, bind_lift_ok in Hrun;
    match type of Hrun with context [credential ?en ?n] =>
      destruct (credential en n) as [key |] eqn:Hc end.
  2, 4, 6, 8: (inversion Hrun; subst e tr;
    eapply error_only_shape; [intros [[x Hx] _]; discriminate Hx | reflexivity]).
  all: match goal with |- context [In ?a ?l] =>
         destruct (In_dec string_dec a l) as [Hin | Hn] end.
  - apply outcome_details_shape; eauto.
    revert Hrun. apply post_try_catch; [| apply (handler_post LinearTool)].
    apply after_switch_post. now apply Linear_dispatch_known.
  - rewrite (Linear_dispatch_unknown _ _ _ _ _ Hn) in Hrun.
    inversion Hrun; subst e tr. eapply error_only_shape; [tauto | reflexivity].
  - apply outcome_details_shape; eauto.
    revert Hrun. apply post_try_catch; [| apply (handler_post GitHubTool)].
    do 3 (apply post_bind; intro).
    apply after_switch_post. now apply GitHub_dispatch_known.
  - destruct (readStringParam_optional params "owner") as (owner & Ho & _).
    destruct (readStringParam_optional params "repo") as (repo & Hr & _).
    destruct (readStringParam_optional params "state") as (state & Hs & _).
    rewrite Ho, Hr, Hs, !bind_lift_ok, (GitHub_dispatch_unknown _ _ _ _ _ _ _ _ Hn) in Hrun.
    inversion Hrun; subst e tr. eapply error_only_shape; [tauto | reflexivity].
  - apply outcome_details_shape; eauto.
    revert Hrun. apply post_try_catch; [| apply (handler_post ElevenLabsTool)].
    apply after_switch_post. now apply ElevenLabs_dispatch_known.
  - rewrite (ElevenLabs_dispatch_unknown _ _ _ _ _ Hn) in Hrun.
    inversion Hrun; subst e tr. eapply error_only_shape; [tauto | reflexivity].
  - apply outcome_details_shape; eauto.
    revert Hrun. apply post_try_catch; [| apply (handler_post OpenAITool)].
    apply after_switch_post. now apply OpenAI_dispatch_known.
  - rewrite (OpenAI_dispatch_unknown _ _ _ _ _ Hn) in Hrun.
    inversion Hrun; subst e tr. eapply error_only_shape; [tauto | reflexivity].
Qed.

Lemma details_shape_witness :
  let e := error_envelope GitHubTool "getRepo" "GitHub API error (404): Not Found" in
  (is_Some (details e !! "success") \/ is_Some (details e !! "error"))
  /\ (is_Some (details e !! "action")
      <-> is_Some (credential {[ "GITHUB_TOKEN" := "ghp_token" ]} "GITHUB_TOKEN")
          /\ In "getRepo" GitHub.actions)
  /\ (is_Some (details e !! "action") -> details e !! "action" = Some (VStr "getRepo")).
Proof.
  apply (details_shape GitHubTool mock_runtime network_404 "call-1"
           {[ "GITHUB_TOKEN" := "ghp_token" ]}
           {[ "action" := VStr "getRepo"; "owner" := VStr "octocat";
              "repo" := VStr "hello" ]}
           "getRepo" _
           [ {| req_url := "https://api.github.com/repos/octocat/hello";
                req_method := "GET";
                req_headers := [("Authorization", "Bearer ghp_token");
                                ("Accept", "application/vnd.github+json");
                                ("X-GitHub-Api-Version", "2022-11-28")];
                req_body := NoBody |} ]);
    reflexivity.
Defined.

(** C2 (counterexample). The envelope of a missing credential has no
    [action] in its [details]; neither has the one of an unknown action. *)
Lemma details_without_action :
  (exists e,
     run (execute GitHubTool mock_runtime network_ok "call-1" ∅
            {[ "action" := VStr "getRepo" ]}) = (Ok e, [])
     /\ details e !! "action" = None)
  /\ (exists e,
        run (execute OpenAITool mock_runtime network_ok "call-1"
               {[ "OPENAI_API_KEY" := "sk-key" ]}
               {[ "action" := VStr "complete" ]}) = (Ok e, [])
        /\ details e !! "action" = None).
Proof. split; eexists; split; reflexivity. Qed.

(** ** Strings *)

Lemma prefix_app (m s : string) : String.prefix m (m +:+ s) = true.
Proof.
  induction m as [| c m IH]; [now destruct s |].
  change (String c m +:+ s) with (String c (m +:+ s)).
  cbn [String.prefix]. destruct (ascii_dec c c); [exact IH | congruence].
Qed.

Lemma includes_unfold (needle hay : string) :
  includes needle hay
  = if String.prefix needle hay then true
    else match hay with
         | EmptyString => false
         | String _ hay' => includes needle hay'
         end.
Proof. destruct hay; reflexivity. Qed.

Lemma includes_prefix (m s : string) : includes m (m +:+ s) = true.
Proof. rewrite includes_unfold, prefix_app. reflexivity. Qed.

Lemma includes_app (m p s : string) : includes m (p +:+ (m +:+ s)) = true.
Proof.
  induction p as [| c p IH]; [exact (includes_prefix m s) |].
  change (String c p +:+ (m +:+ s)) with (String c (p +:+ (m +:+ s))).
  rewrite includes_unfold, IH. now destruct (String.prefix m _).
Qed.

Lemma app_empty_r (s : string) : s +:+ EmptyString = s.
Proof.
  induction s as [| c s IH]; [reflexivity |].
  change (String c s +:+ EmptyString) with (String c (s +:+ EmptyString)).
  now rewrite IH.
Qed.

Lemma includes_suffix (m p : string) : includes m (p +:+ m) = true.
Proof. rewrite <- (app_empty_r m) at 2. apply includes_app. Qed.

(** ** The GraphQL transport *)

(** C3. When the response to a GraphQL request is a success whose JSON
    body has an [errors] array that starts with an object carrying a
    [message], [linearGraphQL] throws
    ["Linear GraphQL error: " + message], whatever else the body holds
    ([data] included), after that one request. *)
Theorem linearGraphQL_errors (rt : runtime) (net : network)
    (query : string) (variables : jsval) (apiKey : string) (tr : list request)
    (r : response) (members first : list (string * jsval)) (rest : list jsval)
    (m : string) :
  net (graphql_request query variables apiKey) = Ok r ->
  resp_ok r = true ->
  resp_json r = Ok (VObj members) ->
  obj_get members "errors" = Some (VArr (VObj first :: rest)) ->
  obj_get first "message" = Some (VStr m) ->
  Linear.linearGraphQL rt net query variables apiKey tr
    = (Throw (Error ("Linear GraphQL error: " +:+ m)),
       (tr ++ [graphql_request query variables apiKey])%list)
  /\ includes m ("Linear GraphQL error: " +:+ m) = true.
Proof.
  intros Hnet Hok Hjson Herrors Hmessage.
  split; [| apply includes_suffix].
  unfold Linear.linearGraphQL, bind, fetch, lift, throw, ret.
  fold (graphql_request query variables apiKey).
  rewrite Hnet, Hok, Hjson. cbn [negb get_prop]. rewrite Herrors.
  cbn. rewrite Hmessage. reflexivity.
Qed.

Lemma linearGraphQL_errors_witness :
  Linear.linearGraphQL mock_runtime network_graphql_error
      Linear.getIssue_query (VObj [("id", VStr "I1")]) "lin_api_key" []
    = (Throw (Error "Linear GraphQL error: Entity not found"),
       [graphql_request Linear.getIssue_query (VObj [("id", VStr "I1")]) "lin_api_key"])
  /\ includes "Entity not found" "Linear GraphQL error: Entity not found" = true.
Proof.
  apply (linearGraphQL_errors mock_runtime network_graphql_error
           Linear.getIssue_query (VObj [("id", VStr "I1")]) "lin_api_key" []
           (mock_response true 200 entity_not_found_body)
           [("errors", VArr [VObj [("message", VStr "Entity not found")]]);
            ("data", VObj [("issue", VNull)])]
           [("message", VStr "Entity not found")] [] "Entity not found");
    reflexivity.
Defined.

(** ** Required parameters *)

Lemma present_string_false params k :
  present params (RString k) = false ->
  readStringParam params k false = Ok None
  /\ readStringParam params k true = Throw (Error (k +:+ " required")).
Proof.
  unfold present, readStringParam.
  destruct (params !! k) as [[| | | | [|c s] | |] |]; intros H; split;
    first [reflexivity | discriminate H].
Qed.

Lemma present_string_true params k :
  present params (RString k) = true ->
  exists c s, readStringParam params k false = Ok (Some (String c s))
              /\ readStringParam params k true = Ok (Some (String c s)).
Proof.
  unfold present, readStringParam.
  destruct (params !! k) as [[| | | | [|c s] | |] |]; intros H;
    first [discriminate H | eauto].
Qed.

Lemma optional_cases params k :
  readStringParam params k false = Ok None
  \/ exists c s, readStringParam params k false = Ok (Some (String c s)).
Proof.
  unfold readStringParam.
  destruct (params !! k) as [[| | | | [|c s] | |] |]; eauto.
Qed.

(** Split on the action that [required_parameters] looks up. *)
Ltac by_action H :=
  unfold required_parameters, is_case in H;
  repeat match type of H with
         | context [String.eqb ?a ?l] =>
             destruct (String.eqb_spec a l) as [-> | ?]
         end;
  try discriminate H.

(** Split on which required parameter is the first missing one. *)
Ltac by_missing H :=
  unfold first_missing in H; cbn [List.find] in H;
  repeat match type of H with
         | context [present ?ps ?r] =>
             let E := fresh "E" in
             destruct (present ps r) eqn:E; cbn [negb] in H; cbv iota in H
         end;
  inversion H; subst; clear H.

Ltac use_present :=
  repeat match goal with
         | E : present _ (RString _) = false |- _ =>
             apply present_string_false in E as [? ?]
         | E : present _ (RString _) = true |- _ =>
             apply present_string_true in E as (? & ? & ? & ?)
         | E : present _ (RTruthy _) = _ |- _ => cbn [present] in E
         end.

Ltac rewrite_reads :=
  repeat match goal with
         | E : readStringParam ?ps ?k ?b = _ |- context [readStringParam ?ps ?k ?b] =>
             rewrite E
         | E : truthy (param ?ps ?k) = _ |- context [truthy (param ?ps ?k)] =>
             rewrite E
         end.

Ltac other_reads :=
  repeat match goal with
         | |- context [readStringParam ?ps ?k false] =>
             destruct (optional_cases ps k) as [-> | (? & ? & ->)]
         end.

(** C5. When an action's first missing required parameter is [p] (a
    string parameter that is absent or empty, or a falsy [number]), and
    the credential is set, the call returns the error envelope, its
    [details.error] names [p], and no request has been issued. *)
Theorem missing_parameter_is_named (t : tool) (rt : runtime) (net : network)
    (id : string) (env : gmap string string) (params : gmap string jsval)
    (action key : string) (p : requirement) :
  supplied params "action" action ->
  credential env (credential_variable t) = Some key ->
  first_missing params (required_parameters t action) = Some p ->
  exists message,
    run (execute t rt net id env params) = (Ok (error_envelope t action message), [])
    /\ includes (requirement_name p) message = true.
Proof.
  intros Ha Hc Hfm. apply readStringParam_required_supplied in Ha.
  unfold run.
  destruct t; cbn [execute credential_variable] in *;
    unfold Linear.execute, GitHub.execute, ElevenLabs.execute, OpenAI.execute;
    rewrite Ha, bind_lift_ok, Hc; clear Ha Hc.
  - by_action Hfm; by_missing Hfm; use_present;
      unfold Linear.dispatch; eval_cases; rewrite_reads;
      eexists; split; reflexivity.
  - by_action Hfm; by_missing Hfm; use_present;
      unfold GitHub.dispatch; eval_cases; rewrite_reads; other_reads;
      eexists; split; reflexivity.
  - by_action Hfm; by_missing Hfm; use_present;
      unfold ElevenLabs.dispatch; eval_cases; rewrite_reads;
      eexists; split; reflexivity.
  - by_action Hfm; by_missing Hfm; use_present;
      unfold OpenAI.dispatch; eval_cases; rewrite_reads;
      eexists; split; reflexivity.
Qed.

Lemma missing_parameter_is_named_witness :
  exists message,
    run (execute LinearTool mock_runtime network_ok "call-1"
           {[ "LINEAR_API_KEY" := "lin_api_key" ]}
           {[ "action" := VStr "createIssue"; "teamId" := VStr "T1" ]})
      = (Ok (error_envelope LinearTool "createIssue" message), [])
    /\ includes "title" message = true.
Proof.
  apply (missing_parameter_is_named LinearTool mock_runtime network_ok "call-1"
           {[ "LINEAR_API_KEY" := "lin_api_key" ]}
           {[ "action" := VStr "createIssue"; "teamId" := VStr "T1" ]}
           "createIssue" "lin_api_key" (RString "title"));
    reflexivity.
Defined.

(** ** Requests issued *)

Lemma issues_ret {A} (a : A) : issues (ret a) [].
Proof. intros tr. cbn. now rewrite app_nil_r. Qed.

Lemma issues_throw {A} (e : exn) : issues (@throw A e) [].
Proof. intros tr. cbn. now rewrite app_nil_r. Qed.

Lemma issues_lift {A} (r : res A) : issues (lift r) [].
Proof. intros tr. cbn. now rewrite app_nil_r. Qed.

Lemma issues_fetch (net : network) (rq : request) : issues (fetch net rq) [rq].
Proof. intros tr. reflexivity. Qed.

(** Once [m] has issued its requests, a continuation that issues none
    adds none. *)
Lemma issues_bind {A B} (m : M A) (k : A -> M B) (rqs : list request) :
  issues m rqs -> (forall a, issues (k a) []) -> issues (bind m k) rqs.
Proof.
  intros Hm Hk tr. unfold bind. specialize (Hm tr).
  destruct (m tr) as [[a | e] tr1]; cbn in *.
  - rewrite (Hk a tr1), app_nil_r. exact Hm.
  - exact Hm.
Qed.

Lemma issues_try_catch {A} (body : M A) (handler : exn -> M A) (rqs : list request) :
  issues body rqs -> (forall e, issues (handler e) []) ->
  issues (try_catch body handler) rqs.
Proof.
  intros Hb Hh tr. unfold try_catch. specialize (Hb tr).
  destruct (body tr) as [[a | e] tr1]; cbn in *.
  - exact Hb.
  - rewrite (Hh e tr1), app_nil_r. exact Hb.
Qed.

(** Walk a computation that issues no further request. *)
Ltac issues_walk :=
  repeat first
    [ apply issues_ret
    | apply issues_throw
    | apply issues_lift
    | apply issues_fetch
    | apply issues_bind; [| intro]
    | match goal with
      | |- issues (if ?b then _ else _) _ => destruct b
      | |- issues (match ?x with _ => _ end) _ => destruct x
      end ].

Lemma elevenlabsRequest_issues rt net endpoint apiKey method body isFormData :
  issues (ElevenLabs.elevenlabsRequest rt net endpoint apiKey method body isFormData)
    [ {| req_url := "https://api.elevenlabs.io/v1" +:+ endpoint;
         req_method := method;
         req_headers :=
           ([("xi-api-key", apiKey)]
            ++ (if negb isFormData && ElevenLabs.has_body body
                then [("Content-Type", "application/json")] else []))%list;
         req_body := body |} ].
Proof. unfold ElevenLabs.elevenlabsRequest. issues_walk. Qed.

(** ** Defaults of [textToSpeech] *)

Lemma optional_read params k :
  exists o, readStringParam params k false = Ok o.
Proof. destruct (readStringParam_optional params k) as (o & H & _). eauto. Qed.

(** C7. The one request of [textToSpeech] carries, for each optional
    parameter that is omitted, its documented default: the voice
    [21m00Tcm4TlvDq8ikWAM] and the output format [mp3_44100_128] in the
    URL, the model [eleven_multilingual_v2] and the voice settings
    [stability = 0.5], [similarity_boost = 0.75], [style = 0] in the body
    (and the supplied value for a string parameter that is supplied). *)
Theorem textToSpeech_defaults (rt : runtime) (net : network) (id : string)
    (env : gmap string string) (params : gmap string jsval) (key text : string) :
  supplied params "action" "textToSpeech" ->
  credential env (credential_variable ElevenLabsTool) = Some key ->
  supplied params "text" text ->
  exists voiceId modelId outputFormat stability similarityBoost style,
    snd (run (execute ElevenLabsTool rt net id env params))
      = [textToSpeech_request key text voiceId modelId
           stability similarityBoost style outputFormat]
    /\ (omitted params "voiceId" -> voiceId = "21m00Tcm4TlvDq8ikWAM")
    /\ (omitted params "modelId" -> modelId = "eleven_multilingual_v2")
    /\ (omitted params "outputFormat" -> outputFormat = "mp3_44100_128")
    /\ (params !! "stability" = None -> stability = VNum (1 # 2))
    /\ (params !! "similarityBoost" = None -> similarityBoost = VNum (3 # 4))
    /\ (params !! "style" = None -> style = VNum 0)
    /\ (forall v, supplied params "voiceId" v -> voiceId = v)
    /\ (forall v, supplied params "modelId" v -> modelId = v)
    /\ (forall v, supplied params "outputFormat" v -> outputFormat = v).
Proof.
  intros Ha Hc Ht.
  apply readStringParam_required_supplied in Ha, Ht.
  destruct (optional_read params "voiceId") as (ov & Hv).
  destruct (optional_read params "modelId") as (om & Hm).
  destruct (optional_read params "outputFormat") as (ofmt & Hf).
  exists (or_default ov ElevenLabs.DEFAULT_VOICE_ID),
         (or_default om ElevenLabs.DEFAULT_MODEL_ID),
         (or_default ofmt "mp3_44100_128"),
         (nullish (param params "stability") (VNum (1 # 2))),
         (nullish (param params "similarityBoost") (VNum (3 # 4))),
         (nullish (param params "style") (VNum 0)).
  split.
  - unfold run. cbn [execute credential_variable] in *. unfold ElevenLabs.execute.
    rewrite Ha, bind_lift_ok, Hc. unfold ElevenLabs.dispatch. eval_cases.
    rewrite Ht, Hv, Hm, Hf, !bind_lift_ok.
    match goal with |- snd (?m []) = _ => assert (issues m
      [textToSpeech_request key text (or_default ov ElevenLabs.DEFAULT_VOICE_ID)
         (or_default om ElevenLabs.DEFAULT_MODEL_ID)
         (nullish (param params "stability") (VNum (1 # 2)))
         (nullish (param params "similarityBoost") (VNum (3 # 4)))
         (nullish (param params "style") (VNum 0))
         (or_default ofmt "mp3_44100_128")]) as Hi end.
    { apply issues_try_catch; [| intro; apply issues_ret].
      apply issues_bind; [| intros [result | e]; apply issues_ret].
      apply issues_bind; [apply elevenlabsRequest_issues |].
      intro result. issues_walk. }
    exact (Hi []).
  - unfold omitted, supplied, param. rewrite Hv, Hm, Hf.
    repeat split; try (intros H; inversion H; subst; reflexivity).
    + intros ->. reflexivity.
    + intros ->. reflexivity.
    + intros ->. reflexivity.
    + intros v H. inversion H; subst. cbn.
      destruct (optional_cases params "voiceId") as [E | (c & s & E)];
        rewrite Hv in E; inversion E; subst; reflexivity.
    + intros v H. inversion H; subst. cbn.
      destruct (optional_cases params "modelId") as [E | (c & s & E)];
        rewrite Hm in E; inversion E; subst; reflexivity.
    + intros v H. inversion H; subst. cbn.
      destruct (optional_cases params "outputFormat") as [E | (c & s & E)];
        rewrite Hf in E; inversion E; subst; reflexivity.
Qed.

Lemma textToSpeech_defaults_witness :
  snd (run (execute ElevenLabsTool mock_runtime network_ok "call-1"
              {[ "ELEVENLABS_API_KEY" := "xi_key" ]}
              {[ "action" := VStr "textToSpeech"; "text" := VStr "Hello" ]}))
    = [textToSpeech_request "xi_key" "Hello" "21m00Tcm4TlvDq8ikWAM"
         "eleven_multilingual_v2" (VNum (1 # 2)) (VNum (3 # 4)) (VNum 0)
         "mp3_44100_128"].
Proof.
  destruct (textToSpeech_defaults mock_runtime network_ok "call-1"
              {[ "ELEVENLABS_API_KEY" := "xi_key" ]}
              {[ "action" := VStr "textToSpeech"; "text" := VStr "Hello" ]}
              "xi_key" "Hello")
    as (v & m & o & s & b & y & Htr & Hv & Hm & Ho & Hs & Hb & Hy & _);
    [reflexivity | reflexivity | reflexivity |].
  rewrite Htr, Hv, Hm, Ho, Hs, Hb, Hy by reflexivity. reflexivity.
Defined.

(** ** The two-step actions *)

(** C8. In [speechToSpeech] and [transcribe], when the fetch of the audio
    resource is answered with a status that is not [ok], the call returns
    the error envelope ["Failed to fetch audio: <status>"], and the fetch
    is the only request issued: the upload is not attempted. *)
Theorem audio_fetch_failure_short_circuits (t : tool) (rt : runtime) (net : network)
    (id : string) (env : gmap string string) (params : gmap string jsval)
    (action key audioUrl : string) (r : response) :
  two_step t action ->
  supplied params "action" action ->
  credential env (credential_variable t) = Some key ->
  supplied params "audioUrl" audioUrl ->
  net (audio_fetch audioUrl) = Ok r ->
  resp_ok r = false ->
  run (execute t rt net id env params)
    = (Ok (error_envelope t action
             ("Failed to fetch audio: " +:+ decimal (resp_status r))),
       [audio_fetch audioUrl]).
Proof.
  intros Hts Ha Hc Hu Hnet Hok.
  apply readStringParam_required_supplied in Ha, Hu.
  unfold run, audio_fetch in *.
  destruct Hts as [[-> ->] | [-> ->]]; cbn [execute credential_variable] in *.
  - unfold ElevenLabs.execute. rewrite Ha, bind_lift_ok, Hc.
    unfold ElevenLabs.dispatch. eval_cases. rewrite Hu. other_reads.
    all: unfold try_catch, bind, fetch, lift, throw, ret; cbn [template of_opt];
      rewrite Hnet, Hok; reflexivity.
  - unfold OpenAI.execute. rewrite Ha, bind_lift_ok, Hc.
    unfold OpenAI.dispatch. eval_cases. rewrite Hu.
    unfold try_catch, bind, fetch, lift, throw, ret; cbn [template of_opt];
      rewrite Hnet, Hok; reflexivity.
Qed.

Lemma audio_fetch_failure_short_circuits_witness :
  run (execute OpenAITool mock_runtime network_404 "call-1"
         {[ "OPENAI_API_KEY" := "sk-key" ]}
         {[ "action" := VStr "transcribe";
            "audioUrl" := VStr "https://example.com/a.mp3" ]})
    = (Ok (error_envelope OpenAITool "transcribe" "Failed to fetch audio: 404"),
       [audio_fetch "https://example.com/a.mp3"]).
Proof.
  apply (audio_fetch_failure_short_circuits OpenAITool mock_runtime network_404
           "call-1" {[ "OPENAI_API_KEY" := "sk-key" ]}
           {[ "action" := VStr "transcribe";
              "audioUrl" := VStr "https://example.com/a.mp3" ]}
           "transcribe" "sk-key" "https://example.com/a.mp3"
           (mock_response false 404 "Not Found"));
    first [reflexivity | right; split; reflexivity].
Defined.

(** ** The filter of [listIssues] *)

Lemma read_delete_ne params k k' required :
  k <> k' ->
  readStringParam (delete k params) k' required = readStringParam params k' required.
Proof. intros Hne. unfold readStringParam. now rewrite lookup_delete_ne. Qed.

Lemma read_delete_eq params k :
  readStringParam (delete k params) k false = Ok None.
Proof. unfold readStringParam. now rewrite lookup_delete_eq. Qed.

Lemma supplied_read params k v :
  supplied params k v -> exists c s, v = String c s.
Proof.
  intros H. pose proof (supplied_nonempty _ _ _ H) as Hne.
  destruct v as [| c s]; [discriminate Hne | eauto].
Qed.

(** A member whose name does not start with a quote is a syntax error,
    whatever follows. *)
Lemma parse_unquoted_member (fuel : nat) (c : ascii) (r : string) :
  is_ws c = false ->
  (nat_of_ascii c =? 34)%nat = false ->
  (nat_of_ascii c =? 125)%nat = false ->
  parse_text (S (S fuel)) (String "{" (String c r)) = PSyntax.
Proof.
  intros Hws Hq Hb.
  assert (skip_ws (String c r) = String c r) as Hs by (cbn; now rewrite Hws).
  unfold parse_text. cbn [parse_value].
  change (skip_ws (String "{" (String c r))) with (String "{" (String c r)).
  cbv iota. change (nat_of_ascii "{" =? 123)%nat with true. cbv iota.
  rewrite Hs, Hb. cbn [parse_members]. rewrite Hs, Hq. reflexivity.
Qed.

(** The text [listIssues] hands to [JSON.parse] is never JSON: the member
    names [team] and [project] are not quoted. *)
Lemma filter_text_rejected (rt : runtime) (teamId projectId : option string) :
  let filter := Linear.listIssues_filter rt teamId projectId in
  is_empty filter = false ->
  parse_text (json_fuel (filter_text filter)) (filter_text filter) = PSyntax
  /\ JSON_parse (filter_text filter) = None.
Proof.
  intros filter Hne.
  assert (exists c r, filter_text filter = String "{" (String c r)
                      /\ is_ws c = false
                      /\ (nat_of_ascii c =? 34)%nat = false
                      /\ (nat_of_ascii c =? 125)%nat = false) as (c & r & Ht & Hc).
  { subst filter. unfold Linear.listIssues_filter in *.
    destruct (absent projectId); [destruct (absent teamId); [discriminate Hne |] |];
      eexists _, _; (split; [reflexivity | repeat split]). }
  assert (parse_text (json_fuel (filter_text filter)) (filter_text filter) = PSyntax) as H.
  { unfold json_fuel. rewrite Ht. now apply parse_unquoted_member. }
  split; [exact H |]. unfold JSON_parse. now rewrite H.
Qed.

(** With a team or a project supplied, [listIssues] fails in [JSON.parse],
    before any request. *)
Lemma listIssues_with_filter_fails (rt : runtime) (net : network) (id : string)
    (env : gmap string string) (params : gmap string jsval) (key : string)
    (teamId projectId : option string) :
  supplied params "action" "listIssues" ->
  credential env (credential_variable LinearTool) = Some key ->
  readStringParam params "teamId" false = Ok teamId ->
  readStringParam params "projectId" false = Ok projectId ->
  is_empty (Linear.listIssues_filter rt teamId projectId) = false ->
  run (execute LinearTool rt net id env params)
    = (Ok (error_envelope LinearTool "listIssues"
             (SyntaxError_message rt
                (filter_text (Linear.listIssues_filter rt teamId projectId)))), []).
Proof.
  intros Ha Hc Ht Hp Hne.
  destruct (filter_text_rejected rt teamId projectId Hne) as [_ Hparse].
  apply readStringParam_required_supplied in Ha.
  unfold run. cbn [execute credential_variable] in *. unfold Linear.execute.
  rewrite Ha, bind_lift_ok, Hc. unfold Linear.dispatch. eval_cases.
  rewrite Ht, Hp, !bind_lift_ok. unfold Linear.listIssues_variable.
  fold (filter_text (Linear.listIssues_filter rt teamId projectId)).
  rewrite Hne, Hparse. reflexivity.
Qed.

(** C9. With both [teamId] and [projectId] supplied, the filter of
    [listIssues] is the project condition alone, the same as without the
    team, and the call is the call that omits [teamId].  With the
    credential set, what the call hands to [JSON.parse] is the text of
    that project condition, in which the team does not appear: the call
    ends there, with the [SyntaxError] of that text and no request. *)
Theorem listIssues_project_overrides_team (rt : runtime) (net : network)
    (id : string) (env : gmap string string) (params : gmap string jsval)
    (teamId projectId : string) :
  supplied params "action" "listIssues" ->
  supplied params "teamId" teamId ->
  supplied params "projectId" projectId ->
  Linear.listIssues_filter rt (Some teamId) (Some projectId) = project_fragment projectId
  /\ Linear.listIssues_filter rt (Some teamId) (Some projectId)
     = Linear.listIssues_filter rt None (Some projectId)
  /\ run (execute LinearTool rt net id env params)
     = run (execute LinearTool rt net id env (delete "teamId" params))
  /\ (forall key,
        credential env (credential_variable LinearTool) = Some key ->
        run (execute LinearTool rt net id env params)
          = (Ok (error_envelope LinearTool "listIssues"
                   (SyntaxError_message rt (filter_text (project_fragment projectId)))),
             [])).
Proof.
  intros Ha Ht Hp.
  assert (Linear.listIssues_filter rt (Some teamId) (Some projectId)
          = project_fragment projectId) as Hfilter.
  { destruct (supplied_read _ _ _ Hp) as (cp & sp & ->). reflexivity. }
  split; [exact Hfilter |]. split; [| split].
  - destruct (supplied_read _ _ _ Hp) as (cp & sp & ->). reflexivity.
  - destruct (supplied_read _ _ _ Ht) as (ct & st & ->).
    destruct (supplied_read _ _ _ Hp) as (cp & sp & ->).
    unfold run. cbn [execute]. unfold Linear.execute.
    rewrite (read_delete_ne params "teamId" "action") by discriminate.
    apply readStringParam_required_supplied in Ha. rewrite Ha, !bind_lift_ok.
    destruct (credential env "LINEAR_API_KEY") as [key |]; [| reflexivity].
    unfold Linear.dispatch. eval_cases.
    rewrite read_delete_eq, (read_delete_ne params "teamId" "projectId") by discriminate.
    unfold supplied in Ht, Hp. rewrite Ht, Hp, !bind_lift_ok. reflexivity.
  - intros key Hc. rewrite <- Hfilter.
    apply listIssues_with_filter_fails with (key := key); try assumption.
    rewrite Hfilter. destruct (supplied_read _ _ _ Hp) as (cp & sp & ->). reflexivity.
Qed.

Lemma listIssues_project_overrides_team_witness :
  let params : gmap string jsval :=
    {[ "action" := VStr "listIssues"; "teamId" := VStr "T1"; "projectId" := VStr "P1" ]} in
  let env : gmap string string := {[ "LINEAR_API_KEY" := "lin_api_key" ]} in
  Linear.listIssues_filter echo_runtime (Some "T1") (Some "P1") = project_fragment "P1"
  /\ Linear.listIssues_filter echo_runtime (Some "T1") (Some "P1")
     = Linear.listIssues_filter echo_runtime None (Some "P1")
  /\ run (execute LinearTool echo_runtime network_ok "call-1" env params)
     = run (execute LinearTool echo_runtime network_ok "call-1" env
              (delete "teamId" params))
  /\ (forall key,
        credential env (credential_variable LinearTool) = Some key ->
        run (execute LinearTool echo_runtime network_ok "call-1" env params)
          = (Ok (error_envelope LinearTool "listIssues"
                   (SyntaxError_message echo_runtime
                      (filter_text (project_fragment "P1")))),
             [])).
Proof.
  intros params env.
  apply (listIssues_project_overrides_team echo_runtime network_ok "call-1"
           env params "T1" "P1");
    reflexivity.
Defined.

(** What that call returns: the text parsed names the project and not the
    team. *)
Lemma listIssues_project_overrides_team_example :
  run (execute LinearTool echo_runtime network_ok "call-1"
         {[ "LINEAR_API_KEY" := "lin_api_key" ]}
         {[ "action" := VStr "listIssues"; "teamId" := VStr "T1";
            "projectId" := VStr "P1" ]})
    = (Ok (error_envelope LinearTool "listIssues"
             ("Unexpected token in JSON: {project: { id: { eq: " +:+ dquote +:+ "P1"
              +:+ dquote +:+ " } }}")), []).
Proof. reflexivity. Qed.

(** C10. When the [teamId] or the [projectId] of a [listIssues] call holds
    a double quote, [JSON.parse] rejects the text built from it, and the
    call returns the error envelope without issuing a request.  (The
    quote is not what the parser stops at: see [filter_text_rejected].) *)
Theorem listIssues_quote_in_id_fails (rt : runtime) (net : network) (id : string)
    (env : gmap string string) (params : gmap string jsval) (key v : string) :
  supplied params "action" "listIssues" ->
  credential env (credential_variable LinearTool) = Some key ->
  supplied params "teamId" v \/ supplied params "projectId" v ->
  includes dquote v = true ->
  exists teamId projectId filter,
    readStringParam params "teamId" false = Ok teamId
    /\ readStringParam params "projectId" false = Ok projectId
    /\ filter = Linear.listIssues_filter rt teamId projectId
    /\ JSON_parse (filter_text filter) = None
    /\ run (execute LinearTool rt net id env params)
       = (Ok (error_envelope LinearTool "listIssues"
                (SyntaxError_message rt (filter_text filter))), []).
Proof.
  intros Ha Hc Hv _.
  destruct (optional_read params "teamId") as (teamId & Ht).
  destruct (optional_read params "projectId") as (projectId & Hp).
  assert (is_empty (Linear.listIssues_filter rt teamId projectId) = false) as Hne.
  { unfold Linear.listIssues_filter.
    destruct Hv as [Hv | Hv]; destruct (supplied_read _ _ _ Hv) as (c & s & ->);
      unfold supplied in Hv; rewrite Hv in *.
    - inversion Ht; subst teamId. now destruct (absent projectId).
    - inversion Hp; subst projectId. reflexivity. }
  exists teamId, projectId, (Linear.listIssues_filter rt teamId projectId).
  repeat split; try assumption.
  - now apply filter_text_rejected.
  - now apply listIssues_with_filter_fails with (key := key).
Qed.

Lemma listIssues_quote_in_id_fails_witness :
  exists teamId projectId filter,
    readStringParam
      {[ "action" := VStr "listIssues"; "teamId" := VStr ("T" +:+ dquote +:+ "1") ]}
      "teamId" false = Ok teamId
    /\ readStringParam
         {[ "action" := VStr "listIssues"; "teamId" := VStr ("T" +:+ dquote +:+ "1") ]}
         "projectId" false = Ok projectId
    /\ filter = Linear.listIssues_filter mock_runtime teamId projectId
    /\ JSON_parse (filter_text filter) = None
    /\ run (execute LinearTool mock_runtime network_ok "call-1"
              {[ "LINEAR_API_KEY" := "lin_api_key" ]}
              {[ "action" := VStr "listIssues";
                 "teamId" := VStr ("T" +:+ dquote +:+ "1") ]})
       = (Ok (error_envelope LinearTool "listIssues"
                (SyntaxError_message mock_runtime (filter_text filter))), []).
Proof.
  apply (listIssues_quote_in_id_fails mock_runtime network_ok "call-1"
           {[ "LINEAR_API_KEY" := "lin_api_key" ]}
           {[ "action" := VStr "listIssues";
              "teamId" := VStr ("T" +:+ dquote +:+ "1") ]}
           "lin_api_key" ("T" +:+ dquote +:+ "1"));
    first [reflexivity | left; reflexivity].
Defined.

(** ** The happy path *)

Lemma succeeds_ret {A} (a : A) (Q : A -> Prop) : Q a -> succeeds (ret a) Q.
Proof. intros HQ tr. exists a, tr. now split. Qed.

Lemma succeeds_bind {A B} (m : M A) (k : A -> M B) (P : A -> Prop) (Q : B -> Prop) :
  succeeds m P -> (forall a, P a -> succeeds (k a) Q) -> succeeds (bind m k) Q.
Proof.
  intros Hm Hk tr. destruct (Hm tr) as (a & tr1 & E & HP).
  unfold bind. rewrite E. exact (Hk a HP tr1).
Qed.

Lemma succeeds_try_catch {A} (body : M A) (handler : exn -> M A) (Q : A -> Prop) :
  succeeds body Q -> succeeds (try_catch body handler) Q.
Proof.
  intros Hb tr. destruct (Hb tr) as (a & tr1 & E & HQ).
  unfold try_catch. rewrite E. eauto.
Qed.

Lemma fetch_succeeds rt net rq :
  healthy rt net -> succeeds (fetch net rq) healthy_response.
Proof.
  intros [Hnet _] tr. destruct (Hnet rq) as (r & E & Hr).
  unfold fetch. rewrite E. eauto.
Qed.

(** What a healthy response reads as. *)
Ltac read_response :=
  match goal with
  | H : healthy_response ?r |- _ =>
      let ok := fresh "Hok" in
      let b := fresh "Hbytes" in
      let j := fresh "Hjson" in
      let e := fresh "Herrors" in
      let a := fresh "Haudio" in
      destruct H as (ok & (? & b) & (? & j & e & a));
      try rewrite ok; try rewrite b; try rewrite j
  end.

Lemma githubRequest_succeeds rt net endpoint token method body :
  healthy rt net ->
  succeeds (GitHub.githubRequest net endpoint token method body) (fun _ => True).
Proof.
  intros H. unfold GitHub.githubRequest.
  eapply succeeds_bind; [apply (fetch_succeeds rt), H |].
  intros r Hr. read_response. cbn [negb]. intros tr. cbv [lift]. eauto.
Qed.

Lemma openaiRequest_succeeds rt net endpoint apiKey body :
  healthy rt net ->
  succeeds (OpenAI.openaiRequest net endpoint apiKey body) (fun _ => True).
Proof.
  intros H. unfold OpenAI.openaiRequest.
  eapply succeeds_bind; [apply (fetch_succeeds rt), H |].
  intros r Hr. read_response. cbn [negb]. intros tr. cbv [lift]. eauto.
Qed.

Lemma linearGraphQL_succeeds rt net query variables apiKey :
  healthy rt net ->
  succeeds (Linear.linearGraphQL rt net query variables apiKey) (fun _ => True).
Proof.
  intros H. unfold Linear.linearGraphQL.
  eapply succeeds_bind; [apply (fetch_succeeds rt), H |].
  intros r Hr. read_response. cbn [negb]. rewrite bind_lift_ok.
  cbn [get_prop]. rewrite Herrors. cbn [default]. rewrite !bind_lift_ok.
  cbn [truthy]. rewrite bind_ret. cbv iota.
  intros tr. cbv [lift]. eauto.
Qed.

Lemma elevenlabsRequest_succeeds rt net endpoint apiKey method body isFormData :
  healthy rt net ->
  succeeds (ElevenLabs.elevenlabsRequest rt net endpoint apiKey method body isFormData)
           audio_or_json.
Proof.
  intros H. unfold ElevenLabs.elevenlabsRequest.
  eapply succeeds_bind; [apply (fetch_succeeds rt), H |].
  intros r Hr. read_response. cbn [negb].
  assert (succeeds (lift (Ok (VObj x0))) audio_or_json) as Hj.
  { intros tr. eexists _, _. split; [reflexivity |]. left. cbn. rewrite Haudio.
    apply bool_decide_eq_false. intros [v Hv]. discriminate Hv. }
  destruct (resp_content_type r) as [contentType |]; [| exact Hj].
  destruct (includes "audio" contentType); [| exact Hj].
  rewrite bind_lift_ok. apply succeeds_ret. right. eauto.
Qed.

Lemma after_switch_succeeds rt action (d : M completion) :
  succeeds d (completes action) ->
  succeeds (done <- d ;;
            match done with
            | Return e => ret e
            | Break result =>
                ret {| content := [{| type := "text"; text := JSON_stringify rt result |}];
                       details := {[ "action" := of_opt (Some action);
                                     "success" := VBool true ]} |}
            end)
           (success_details action).
Proof.
  intros Hd. eapply succeeds_bind; [exact Hd |].
  intros [result | e] He; apply succeeds_ret; [split; reflexivity | exact He].
Qed.

Ltac eval_cases_in H :=
  repeat match type of H with
         | context [is_case (Some ?a) ?l] =>
             let b := eval vm_compute in (is_case (Some a) l) in
             change (is_case (Some a) l) with b in H
         end;
  cbv iota in H.

(** Every required parameter is there. *)
Ltac all_present H :=
  unfold first_missing, required_parameters in H; eval_cases_in H;
  cbn [List.find] in H;
  repeat match type of H with
         | context [present ?ps ?r] =>
             let E := fresh "E" in
             destruct (present ps r) eqn:E; cbn [negb] in H; cbv iota in H;
             [| discriminate H]
         end;
  clear H; use_present.

Ltac guards :=
  cbn [absent of_opt truthy is_empty negb orb andb]; cbv iota;
  rewrite ?bind_lift_ok.

Ltac succeeds_walk rt H :=
  repeat first
    [ rewrite bind_lift_ok
    | apply succeeds_ret; first [exact I | split; reflexivity]
    | eapply succeeds_bind;
      [ first [ apply (githubRequest_succeeds rt), H
              | apply (openaiRequest_succeeds rt), H
              | apply linearGraphQL_succeeds, H
              | apply elevenlabsRequest_succeeds, H
              | apply (fetch_succeeds rt), H ]
      | intros ? ? ]
    | match goal with
      | |- context [encodeURIComponent rt ?q] =>
          let E := fresh "E" in destruct (proj2 H q) as (? & E); rewrite E
      | Hr : healthy_response _ |- _ => read_response; cbn [negb]; cbv iota
      | Ha : audio_or_json _ |- _ =>
          destruct Ha as [Ha | (? & ? & ->)];
          [ rewrite Ha
          | change (has_audio (VObj [("audio", VStr ?a); ("contentType", VStr ?c)]))
              with true; cbv iota; cbn [get_prop substring_0_100 obj_get String.eqb default] ]
      end ].

(** On the happy path every recognised action succeeds: with the
    credential set, every required parameter there, a healthy network and
    runtime, and (for [listIssues]) no team and no project named, the
    envelope carries the action and [success: true]. *)
Lemma happy_path (t : tool) (rt : runtime) (net : network)
    (id : string) (env : gmap string string) (params : gmap string jsval)
    (action key : string) :
  healthy rt net ->
  supplied params "action" action ->
  In action (actions t) ->
  credential env (credential_variable t) = Some key ->
  first_missing params (required_parameters t action) = None ->
  unfiltered t action params ->
  exists e tr,
    run (execute t rt net id env params) = (Ok e, tr) /\ success_details action e.
Proof.
  intros H Ha Hin Hc Hreq Hf. apply readStringParam_required_supplied in Ha.
  unfold run, unfiltered, omitted in *.
  destruct t; cbn [execute credential_variable actions] in *;
    unfold Linear.execute, GitHub.execute, ElevenLabs.execute, OpenAI.execute;
    rewrite Ha, bind_lift_ok, Hc; clear Ha Hc.
  - each_action Hin; all_present Hreq;
      try (destruct (Hf eq_refl eq_refl) as [Ht Hp]); clear Hf;
      apply succeeds_try_catch, after_switch_succeeds;
      unfold Linear.dispatch; eval_cases; rewrite_reads; other_reads; guards;
      try change (Linear.listIssues_variable rt (Linear.listIssues_filter rt None None))
        with (@Ok jsval VUndefined);
      succeeds_walk rt H.
  - clear Hf. each_action Hin; all_present Hreq; rewrite_reads; other_reads;
      rewrite ?bind_lift_ok;
      apply succeeds_try_catch, after_switch_succeeds;
      unfold GitHub.dispatch, GitHub.owner_and_repo_required; eval_cases;
      rewrite_reads; other_reads; guards;
      succeeds_walk rt H.
  - clear Hf. each_action Hin; all_present Hreq;
      apply succeeds_try_catch, after_switch_succeeds;
      unfold ElevenLabs.dispatch; eval_cases; rewrite_reads; other_reads; guards;
      succeeds_walk rt H.
  - clear Hf. each_action Hin; all_present Hreq;
      apply succeeds_try_catch, after_switch_succeeds;
      unfold OpenAI.dispatch; eval_cases; rewrite_reads; other_reads; guards;
      succeeds_walk rt H.
Qed.

Lemma network_ok_healthy : healthy mock_runtime network_ok.
Proof.
  split.
  - intros rq. eexists. split; [reflexivity |].
    split; [reflexivity | split; eexists; [reflexivity | repeat split; reflexivity]].
  - intros s. eexists. reflexivity.
Qed.

Lemma happy_path_createIssue :
  exists e tr,
    run (execute LinearTool mock_runtime network_ok "call-1"
           {[ "LINEAR_API_KEY" := "lin_api_key" ]}
           {[ "action" := VStr "createIssue"; "teamId" := VStr "T1";
              "title" := VStr "Bug" ]}) = (Ok e, tr)
    /\ success_details "createIssue" e.
Proof.
  apply (happy_path LinearTool mock_runtime network_ok "call-1"
           {[ "LINEAR_API_KEY" := "lin_api_key" ]}
           {[ "action" := VStr "createIssue"; "teamId" := VStr "T1";
              "title" := VStr "Bug" ]} "createIssue" "lin_api_key");
    first [ exact network_ok_healthy | reflexivity
          | cbn; tauto | intros _ E; discriminate E ].
Defined.

(** ** A successful listing by team *)

(** C6 (failing input). [listIssues] for team [T1], with the credential
    set and a network that answers every request with [200] and a JSON
    body: the call issues no request and returns an error envelope, with
    no [success] in its [details], because [{team: { id: { eq: "T1" } }}]
    is not JSON. *)
Lemma listIssues_by_team_fails :
  JSON_parse (filter_text (Linear.listIssues_filter mock_runtime (Some "T1") None)) = None
  /\ run (execute LinearTool mock_runtime network_ok "call-1"
            {[ "LINEAR_API_KEY" := "lin_api_key" ]}
            {[ "action" := VStr "listIssues"; "teamId" := VStr "T1" ]})
     = (Ok (error_envelope LinearTool "listIssues" "Unexpected token in JSON"), [])
  /\ details (error_envelope LinearTool "listIssues" "Unexpected token in JSON")
       !! "success" = None.
Proof. repeat split; reflexivity. Qed.

(** The same network does serve the listing that names no team. *)
Lemma listIssues_unfiltered_succeeds :
  exists e rq,
    run (execute LinearTool mock_runtime network_ok "call-1"
           {[ "LINEAR_API_KEY" := "lin_api_key" ]}
           {[ "action" := VStr "listIssues" ]}) = (Ok e, [rq])
    /\ details e = {[ "action" := VStr "listIssues"; "success" := VBool true ]}.
Proof. eexists _, _. split; reflexivity. Qed.

(** * Further properties of the tools *)

(** ** No retry: the number of requests of a call *)

Lemma budget_weaken {A} (m : M A) (a b : nat) :
  (a <= b)%nat -> budget m a -> budget m b.
Proof. intros Hab Hm tr. destruct (Hm tr) as (rqs & E & Hl). exists rqs. split; [exact E | lia]. Qed.

Lemma budget_ret {A} (a : A) (n : nat) : budget (ret a) n.
Proof. intros tr. exists []. cbn. rewrite app_nil_r. split; [reflexivity | lia]. Qed.

Lemma budget_throw {A} (e : exn) (n : nat) : budget (@throw A e) n.
Proof. intros tr. exists []. cbn. rewrite app_nil_r. split; [reflexivity | lia]. Qed.

Lemma budget_lift {A} (r : res A) (n : nat) : budget (lift r) n.
Proof. intros tr. exists []. cbn. rewrite app_nil_r. split; [reflexivity | lia]. Qed.

Lemma budget_fetch (net : network) (rq : request) (n : nat) : budget (fetch net rq) (S n).
Proof. intros tr. exists [rq]. cbn. split; [reflexivity | lia]. Qed.

Lemma budget_bind {A B} (m : M A) (k : A -> M B) (a b : nat) :
  budget m a -> (forall x, budget (k x) b) -> budget (bind m k) (a + b).
Proof.
  intros Hm Hk tr. unfold bind. destruct (Hm tr) as (r1 & E1 & H1).
  destruct (m tr) as [[x | e] tr1]; cbn in E1; subst tr1.
  - destruct (Hk x (tr ++ r1)%list) as (r2 & E2 & H2).
    exists (r1 ++ r2)%list. rewrite E2, app_assoc, length_app. split; [reflexivity | lia].
  - exists r1. cbn. split; [reflexivity | lia].
Qed.

Lemma budget_bind_lift {A B} (r : res A) (k : A -> M B) (n : nat) :
  (forall x, budget (k x) n) -> budget (bind (lift r) k) n.
Proof. intros Hk. apply (budget_bind (lift r) k 0 n); [apply budget_lift | exact Hk]. Qed.

Lemma budget_bind_one {A B} (m : M A) (k : A -> M B) (n : nat) :
  budget m 1 -> (forall x, budget (k x) n) -> budget (bind m k) (S n).
Proof. intros Hm Hk. apply (budget_bind m k 1 n); assumption. Qed.

Lemma budget_bind_all {A B} (m : M A) (k : A -> M B) (n : nat) :
  budget m n -> (forall x, budget (k x) 0) -> budget (bind m k) n.
Proof.
  intros Hm Hk. replace n with (n + 0)%nat by lia. now apply budget_bind.
Qed.

Lemma budget_try_catch {A} (body : M A) (handler : exn -> M A) (n : nat) :
  budget body n -> (forall e, budget (handler e) 0) -> budget (try_catch body handler) n.
Proof.
  intros Hb Hh tr. unfold try_catch. destruct (Hb tr) as (r1 & E1 & H1).
  destruct (body tr) as [[x | e] tr1]; cbn in E1; subst tr1.
  - exists r1. split; [reflexivity | exact H1].
  - destruct (Hh e (tr ++ r1)%list) as (r2 & E2 & H2).
    exists (r1 ++ r2)%list. rewrite E2, app_assoc, length_app. split; [reflexivity | lia].
Qed.

Lemma budget_bind_zero {A B} (m : M A) (k : A -> M B) (n : nat) :
  budget m 0 -> (forall x, budget (k x) n) -> budget (bind m k) n.
Proof. intros Hm Hk. apply (budget_bind m k 0 n); assumption. Qed.

(** Walk a computation, charging each transport call one request. *)
Ltac budget_walk helper :=
  repeat first
    [ apply budget_ret
    | apply budget_throw
    | apply budget_lift
    | apply budget_fetch
    | apply helper
    | apply budget_bind_lift; intro
    | apply budget_bind_zero; [solve [budget_walk helper] | intro]
    | apply budget_bind_one; [solve [budget_walk helper] | intro]
    | match goal with
      | |- budget (if ?b then _ else _) _ => destruct b
      | |- budget (match ?x with _ => _ end) _ => destruct x
      end ].

Lemma githubRequest_budget net endpoint token method body :
  budget (GitHub.githubRequest net endpoint token method body) 1.
Proof. unfold GitHub.githubRequest. budget_walk budget_fetch. Qed.

Lemma linearGraphQL_budget rt net query variables apiKey :
  budget (Linear.linearGraphQL rt net query variables apiKey) 1.
Proof. unfold Linear.linearGraphQL. budget_walk budget_fetch. Qed.

Lemma elevenlabsRequest_budget rt net endpoint apiKey method body isFormData :
  budget (ElevenLabs.elevenlabsRequest rt net endpoint apiKey method body isFormData) 1.
Proof. unfold ElevenLabs.elevenlabsRequest. budget_walk budget_fetch. Qed.

Lemma openaiRequest_budget net endpoint apiKey body :
  budget (OpenAI.openaiRequest net endpoint apiKey body) 1.
Proof. unfold OpenAI.openaiRequest. budget_walk budget_fetch. Qed.

(** X1. A call never retries and never fans out: whatever the arguments,
    the environment and the network are, and however the call ends, the
    Linear and GitHub tools issue at most one request, the ElevenLabs and
    OpenAI tools at most two. *)
Theorem execute_request_limit (t : tool) (rt : runtime) (net : network) (id : string)
    (env : gmap string string) (params : gmap string jsval) :
  (length (snd (run (execute t rt net id env params))) <= request_limit t)%nat.
Proof.
  assert (budget (execute t rt net id env params) (request_limit t)) as H.
  { destruct t; cbn [execute request_limit];
      unfold Linear.execute, Linear.dispatch, GitHub.execute, GitHub.dispatch,
        GitHub.owner_and_repo_required, ElevenLabs.execute, ElevenLabs.dispatch,
        OpenAI.execute, OpenAI.dispatch;
      (apply budget_bind_lift; intro action);
      (match goal with |- context [credential ?e ?n] => destruct (credential e n) end;
       [| apply budget_ret]);
      (apply budget_try_catch; [| intro; apply budget_ret]);
      repeat (apply budget_bind_lift; intro);
      (apply budget_bind_all; [| intros [r | e]; apply budget_ret]).
    - budget_walk (linearGraphQL_budget rt net).
    - budget_walk (githubRequest_budget net).
    - budget_walk (elevenlabsRequest_budget rt net).
    - budget_walk (openaiRequest_budget net). }
  destruct (H []) as (rqs & E & Hl). unfold run. rewrite E. exact Hl.
Qed.

(** ** Where the credential goes *)

Lemma sends_ret {A} (a : A) (P : request -> Prop) : sends (ret a) P.
Proof. now intros tr H. Qed.

Lemma sends_throw {A} (e : exn) (P : request -> Prop) : sends (@throw A e) P.
Proof. now intros tr H. Qed.

Lemma sends_lift {A} (r : res A) (P : request -> Prop) : sends (lift r) P.
Proof. now intros tr H. Qed.

Lemma sends_fetch (net : network) (rq : request) (P : request -> Prop) :
  P rq -> sends (fetch net rq) P.
Proof. intros HP tr H. cbn. apply Forall_app. split; [exact H | now constructor]. Qed.

Lemma sends_bind {A B} (m : M A) (k : A -> M B) (P : request -> Prop) :
  sends m P -> (forall x, sends (k x) P) -> sends (bind m k) P.
Proof.
  intros Hm Hk tr H. unfold bind. specialize (Hm tr H).
  destruct (m tr) as [[x | e] tr1]; cbn in *; [now apply Hk | exact Hm].
Qed.

Lemma sends_try_catch {A} (body : M A) (handler : exn -> M A) (P : request -> Prop) :
  sends body P -> (forall e, sends (handler e) P) -> sends (try_catch body handler) P.
Proof.
  intros Hb Hh tr H. unfold try_catch. specialize (Hb tr H).
  destruct (body tr) as [[x | e] tr1]; cbn in *; [exact Hb | now apply Hh].
Qed.

Lemma sends_bind_lift {A B} (r : res A) (k : A -> M B) (P : request -> Prop) :
  (forall x, r = Ok x -> sends (k x) P) -> sends (bind (lift r) k) P.
Proof.
  intros Hk tr H. unfold bind, lift. destruct r as [x | e]; [now apply Hk | exact H].
Qed.

(** What a required read returns is a supplied value. *)
Lemma required_read params key (x : option string) :
  readStringParam params key true = Ok x ->
  exists value, x = Some value /\ supplied params key value.
Proof.
  unfold supplied, readStringParam.
  destruct (params !! key) as [[| | | | [| c s] | |] |]; intros H; inversion H; eauto.
Qed.

(** A request to the API, with the credential header in place. *)
Ltac to_provider :=
  left; split; [eexists; reflexivity | cbn; tauto].

(** The fetch of the audio URL that was read from the arguments. *)
Ltac to_audio_url :=
  match goal with
  | H : readStringParam _ "audioUrl" true = Ok _ |- _ =>
      let u := fresh "u" in
      let Hu := fresh "Hu" in
      destruct (required_read _ _ _ H) as (u & -> & Hu);
      right; exists u; split; [exact Hu | reflexivity]
  end.

Ltac sends_walk :=
  repeat first
    [ apply sends_ret
    | apply sends_throw
    | apply sends_lift
    | apply sends_fetch; first [to_provider | to_audio_url]
    | apply sends_try_catch; [| intro]
    | apply sends_bind_lift; intros ? ?
    | apply sends_bind; [| intro]
    | match goal with
      | |- sends (if ?b then _ else _) _ => destruct b
      | |- sends (match ?x with _ => _ end) _ => destruct x
      end ].

(** X2. The credential goes to its provider only: every request a call
    issues either has a URL that is the provider's origin followed by a
    path, and carries the credential header, or is the fetch of the
    [audioUrl] argument exactly as supplied, a [GET] with no header and
    no body.  With no credential, no request is issued. *)
Theorem execute_requests_confined (t : tool) (rt : runtime) (net : network)
    (id : string) (env : gmap string string) (params : gmap string jsval) :
  match credential env (credential_variable t) with
  | Some key =>
      Forall (confined t key params) (snd (run (execute t rt net id env params)))
  | None => snd (run (execute t rt net id env params)) = []
  end.
Proof.
  destruct (credential env (credential_variable t)) as [key |] eqn:Hc.
  - assert (sends (execute t rt net id env params) (confined t key params)) as H.
    { destruct t; cbn [execute credential_variable] in *;
        unfold Linear.execute, Linear.dispatch, Linear.linearGraphQL,
          GitHub.execute, GitHub.dispatch, GitHub.owner_and_repo_required,
          GitHub.githubRequest, ElevenLabs.execute, ElevenLabs.dispatch,
          ElevenLabs.elevenlabsRequest, OpenAI.execute, OpenAI.dispatch,
          OpenAI.openaiRequest;
        rewrite Hc; sends_walk. }
    apply (H []). constructor.
  - unfold run. destruct t; cbn [execute credential_variable] in *;
      unfold Linear.execute, GitHub.execute, ElevenLabs.execute, OpenAI.execute;
      rewrite Hc; destruct (readStringParam params "action" true); reflexivity.
Qed.

(** A look-alike host, or a URL that is not the [audioUrl] argument, is
    not an allowed target. *)
Lemma confined_excludes_other_hosts :
  ~ confined GitHubTool "ghp_token" {[ "action" := VStr "getUser" ]}
      {| req_url := "https://api.github.com.evil.example/steal";
         req_method := "POST";
         req_headers := [("Authorization", "Bearer ghp_token")];
         req_body := NoBody |}
  /\ ~ confined GitHubTool "ghp_token" {[ "action" := VStr "getUser" ]}
        (audio_fetch "https://evil.example/?k=ghp_token").
Proof.
  split; intros [[[path H] _] | (u & Hu & _)];
    first [discriminate H | discriminate Hu].
Qed.

(** ** The default branch and the empty credential *)

(** X3. An action that is not one of the tool's, with the credential set,
    is answered from the [default] branch: the text is
    ["Unknown action: <action>"], [details] is [{error: "unknown_action"}],
    and no request is issued, whatever the other arguments are. *)
Theorem unknown_action_reported (t : tool) (rt : runtime) (net : network)
    (id : string) (env : gmap string string) (params : gmap string jsval)
    (action key : string) :
  supplied params "action" action ->
  ~ In action (actions t) ->
  credential env (credential_variable t) = Some key ->
  run (execute t rt net id env params) = (Ok (unknown_action_envelope action), []).
Proof.
  intros Ha Hn Hc. apply readStringParam_required_supplied in Ha.
  unfold run.
  destruct t; cbn [execute credential_variable actions] in *;
    unfold Linear.execute, GitHub.execute, ElevenLabs.execute, OpenAI.execute;
    rewrite Ha, bind_lift_ok, Hc.
  - now rewrite (Linear_dispatch_unknown _ _ _ _ _ Hn).
  - destruct (optional_read params "owner") as (owner & ->).
    destruct (optional_read params "repo") as (repo & ->).
    destruct (optional_read params "state") as (state & ->).
    now rewrite !bind_lift_ok, (GitHub_dispatch_unknown _ _ _ _ _ _ _ _ Hn).
  - now rewrite (ElevenLabs_dispatch_unknown _ _ _ _ _ Hn).
  - now rewrite (OpenAI_dispatch_unknown _ _ _ _ _ Hn).
Qed.

Lemma unknown_action_reported_witness :
  run (execute ElevenLabsTool mock_runtime network_ok "call-1"
         {[ "ELEVENLABS_API_KEY" := "xi_key" ]}
         {[ "action" := VStr "deleteVoice"; "voiceId" := VStr "v1" ]})
    = (Ok (unknown_action_envelope "deleteVoice"), []).
Proof.
  apply (unknown_action_reported ElevenLabsTool mock_runtime network_ok "call-1"
           {[ "ELEVENLABS_API_KEY" := "xi_key" ]}
           {[ "action" := VStr "deleteVoice"; "voiceId" := VStr "v1" ]}
           "deleteVoice" "xi_key");
    first [reflexivity | cbn; intuition discriminate].
Defined.

(** X4. A credential variable that is set to the empty string counts as
    not set ([!token]): the call returns the missing-credential envelope
    and issues no request. *)
Theorem empty_credential_is_missing (t : tool) (rt : runtime) (net : network)
    (id : string) (env : gmap string string) (params : gmap string jsval)
    (action : string) :
  supplied params "action" action ->
  env !! credential_variable t = Some EmptyString ->
  exists msg,
    run (execute t rt net id env params)
      = (Ok {| content := [text_block msg];
               details := {[ "error" := VStr (missing_credential_code t) ]} |}, [])
    /\ includes (credential_variable t) msg = true.
Proof.
  intros Ha Henv. apply readStringParam_required_supplied in Ha.
  assert (credential env (credential_variable t) = None) as Hc
    by (unfold credential; now rewrite Henv).
  unfold run.
  destruct t; cbn [execute credential_variable missing_credential_code] in *;
    unfold Linear.execute, GitHub.execute, ElevenLabs.execute, OpenAI.execute;
    rewrite Ha, bind_lift_ok, Hc;
    eexists; (split; reflexivity).
Qed.

Lemma empty_credential_is_missing_witness :
  exists msg,
    run (execute OpenAITool mock_runtime network_ok "call-1"
           {[ "OPENAI_API_KEY" := EmptyString ]}
           {[ "action" := VStr "chat"; "prompt" := VStr "Hi" ]})
      = (Ok {| content := [text_block msg];
               details := {[ "error" := VStr "missing_api_key" ]} |}, [])
    /\ includes "OPENAI_API_KEY" msg = true.
Proof.
  apply (empty_credential_is_missing OpenAITool mock_runtime network_ok "call-1"
           {[ "OPENAI_API_KEY" := EmptyString ]}
           {[ "action" := VStr "chat"; "prompt" := VStr "Hi" ]} "chat");
    reflexivity.
Defined.

(** ** Failing transports *)

Lemma includes_skip (m p s : string) :
  includes m s = true -> includes m (p +:+ s) = true.
Proof.
  intros H. induction p as [| c p IH]; [exact H |].
  change (String c p +:+ s) with (String c (p +:+ s)).
  rewrite includes_unfold, IH. now destruct (String.prefix m _).
Qed.

Lemma throws_throw {A} (e : exn) : throws (@throw A e) e.
Proof. intros tr. now exists tr. Qed.

Lemma throws_bind {A B} (m : M A) (k : A -> M B) (e : exn) :
  throws m e -> throws (bind m k) e.
Proof. intros Hm tr. destruct (Hm tr) as (tr' & E). unfold bind. rewrite E. eauto. Qed.

Lemma throws_after {A B} (m : M A) (k : A -> M B) (P : A -> Prop) (e : exn) :
  succeeds m P -> (forall a, P a -> throws (k a) e) -> throws (bind m k) e.
Proof.
  intros Hm Hk tr. destruct (Hm tr) as (a & tr1 & E & HP).
  unfold bind. rewrite E. exact (Hk a HP tr1).
Qed.

(** What [catch] makes of a body that throws. *)
Lemma caught {A} (body : M A) (handler : exn -> M A) (e : exn) (a : A) :
  throws body e -> (forall tr, handler e tr = (Ok a, tr)) ->
  exists tr, try_catch body handler [] = (Ok a, tr).
Proof.
  intros Hb Hh. destruct (Hb []) as (tr' & E).
  unfold try_catch. rewrite E, Hh. eauto.
Qed.

Lemma fetch_answers_error net status body rq :
  answers_error net status body ->
  succeeds (fetch net rq)
    (fun r => resp_ok r = false /\ resp_status r = status /\ resp_text r = Ok body).
Proof.
  intros H tr. destruct (H rq) as (r & E & Hr). unfold fetch. rewrite E. eauto.
Qed.

Lemma fetch_rejects net e rq : rejects net e -> throws (fetch net rq) e.
Proof. intros H tr. unfold fetch. rewrite (H rq). eauto. Qed.

(** After the fetch, a non-[ok] answer. *)
Ltac answered :=
  let r := fresh "r" in
  let Hok := fresh "Hok" in
  let Hst := fresh "Hst" in
  let Htx := fresh "Htx" in
  intros r (Hok & Hst & Htx); rewrite Hok, ?Htx; cbn [negb]; cbv iota;
  rewrite ?bind_lift_ok, Hst; apply throws_throw.

Lemma githubRequest_http_error net status body endpoint token method payload :
  answers_error net status body ->
  throws (GitHub.githubRequest net endpoint token method payload)
         (Error (http_error GitHubTool "" status body)).
Proof.
  intros H. unfold GitHub.githubRequest.
  eapply throws_after; [apply fetch_answers_error, H |]. answered.
Qed.

Lemma linearGraphQL_http_error rt net status body query variables apiKey :
  answers_error net status body ->
  throws (Linear.linearGraphQL rt net query variables apiKey)
         (Error (http_error LinearTool "" status body)).
Proof.
  intros H. unfold Linear.linearGraphQL.
  eapply throws_after; [apply fetch_answers_error, H |]. answered.
Qed.

Lemma elevenlabsRequest_http_error rt net status body endpoint apiKey method payload form :
  answers_error net status body ->
  throws (ElevenLabs.elevenlabsRequest rt net endpoint apiKey method payload form)
         (Error (http_error ElevenLabsTool "" status body)).
Proof.
  intros H. unfold ElevenLabs.elevenlabsRequest.
  eapply throws_after; [apply fetch_answers_error, H |]. answered.
Qed.

Lemma openaiRequest_http_error net status body endpoint apiKey payload :
  answers_error net status body ->
  throws (OpenAI.openaiRequest net endpoint apiKey payload)
         (Error (http_error OpenAITool "" status body)).
Proof.
  intros H. unfold OpenAI.openaiRequest.
  eapply throws_after; [apply fetch_answers_error, H |]. answered.
Qed.

Ltac eval_audio :=
  unfold http_error;
  repeat match goal with
         | |- context [fetches_audio ?t ?a] =>
             let b := eval vm_compute in (fetches_audio t a) in
             change (fetches_audio t a) with b
         end;
  cbv iota.

(** The [catch] clause turns the error into the envelope. *)
Ltac catch_error :=
  match goal with
  | |- exists tr, try_catch _ _ [] = (Ok (error_envelope _ _ ?m), tr) =>
      apply caught with (e := Error m); [| intro; reflexivity]
  end.

(** Walk a branch up to the transport call that throws. *)
Ltac throws_walk rt Henc failing :=
  repeat first
    [ rewrite bind_lift_ok
    | match goal with
      | |- context [encodeURIComponent rt ?q] =>
          let E := fresh "E" in destruct (Henc q) as (? & E); rewrite E
      end
    | apply throws_bind; failing
    | failing ].

Lemma includes_http_status t action status body :
  includes (decimal status) (http_error t action status body) = true.
Proof.
  unfold http_error. destruct (fetches_audio t action).
  - apply includes_suffix.
  - apply includes_skip, includes_app.
Qed.

Lemma includes_http_body t action status body :
  fetches_audio t action = false ->
  includes body (http_error t action status body) = true.
Proof.
  unfold http_error. intros ->. do 3 apply includes_skip. apply includes_suffix.
Qed.

(** The calls that get as far as their request. *)
Lemma http_error_unfiltered (t : tool) (rt : runtime) (net : network)
    (id : string) (env : gmap string string) (params : gmap string jsval)
    (action key : string) (status : Z) (body : string) :
  answers_error net status body ->
  encodes rt ->
  supplied params "action" action ->
  In action (actions t) ->
  credential env (credential_variable t) = Some key ->
  first_missing params (required_parameters t action) = None ->
  unfiltered t action params ->
  exists tr,
    run (execute t rt net id env params)
      = (Ok (error_envelope t action (http_error t action status body)), tr).
Proof.
  intros H Henc Ha Hin Hc Hreq Hf.
  apply readStringParam_required_supplied in Ha.
  unfold run, unfiltered, omitted in *.
  destruct t; cbn [execute credential_variable actions] in *;
    unfold Linear.execute, GitHub.execute, ElevenLabs.execute, OpenAI.execute;
    rewrite Ha, bind_lift_ok, Hc; clear Ha Hc.
  - each_action Hin; all_present Hreq;
      try (destruct (Hf eq_refl eq_refl) as [Ht Hp]); clear Hf;
      catch_error; apply throws_bind;
      unfold Linear.dispatch; eval_cases; eval_audio; rewrite_reads; other_reads; guards;
      try change (Linear.listIssues_variable rt (Linear.listIssues_filter rt None None))
        with (@Ok jsval VUndefined);
      throws_walk rt Henc ltac:(apply linearGraphQL_http_error, H).
  - clear Hf. each_action Hin; all_present Hreq; rewrite_reads; other_reads;
      rewrite ?bind_lift_ok;
      catch_error; apply throws_bind;
      unfold GitHub.dispatch, GitHub.owner_and_repo_required; eval_cases; eval_audio;
      rewrite_reads; other_reads; guards;
      throws_walk rt Henc ltac:(apply githubRequest_http_error, H).
  - clear Hf. each_action Hin; all_present Hreq;
      catch_error; apply throws_bind;
      unfold ElevenLabs.dispatch; eval_cases; eval_audio; rewrite_reads; other_reads;
      guards;
      throws_walk rt Henc
        ltac:(first [ apply elevenlabsRequest_http_error, H
                    | eapply throws_after; [apply fetch_answers_error, H | answered] ]).
  - clear Hf. each_action Hin; all_present Hreq;
      catch_error; apply throws_bind;
      unfold OpenAI.dispatch; eval_cases; eval_audio; rewrite_reads; other_reads; guards;
      throws_walk rt Henc
        ltac:(first [ apply openaiRequest_http_error, H
                    | eapply throws_after; [apply fetch_answers_error, H | answered] ]).
Qed.


Lemma read_optional_ok params key :
  readStringParam params key false = Ok (read_optional params key).
Proof.
  unfold read_optional. now destruct (optional_read params key) as (o & ->).
Qed.

Lemma read_optional_some params key value :
  read_optional params key = Some value -> exists c s, value = String c s.
Proof.
  intros H. destruct (optional_cases params key) as [E | (c & s & E)];
    rewrite read_optional_ok, H in E; inversion E; eauto.
Qed.

Lemma reaches_request rt t action params :
  fails_before_request rt t action params = false -> unfiltered t action params.
Proof.
  intros H -> ->. cbn in H. unfold omitted. rewrite !read_optional_ok.
  unfold Linear.listIssues_filter in H.
  destruct (read_optional params "teamId") as [teamId |] eqn:Et;
    destruct (read_optional params "projectId") as [projectId |] eqn:Ep;
    try (destruct (read_optional_some _ _ _ Et) as (? & ? & ->));
    try (destruct (read_optional_some _ _ _ Ep) as (? & ? & ->));
    first [discriminate H | split; reflexivity].
Qed.

Lemma stops_before_request rt net id env params t action key :
  supplied params "action" action ->
  credential env (credential_variable t) = Some key ->
  fails_before_request rt t action params = true ->
  run (execute t rt net id env params)
    = (Ok (error_envelope t action (SyntaxError_message rt (listIssues_text rt params))),
       []).
Proof.
  intros Ha Hc H. destruct t; try discriminate H. cbn in H.
  apply andb_prop in H as [Hl Hn]. apply String.eqb_eq in Hl. subst action.
  apply negb_true_iff in Hn.
  now apply listIssues_with_filter_fails with (key := key);
    first [assumption | apply read_optional_ok].
Qed.

(** X5. When the upstream answers every request with a status that is not
    [ok], a recognised action whose required parameters are there returns
    the error envelope.  The one call that does not get to its request,
    [listIssues] with a team or a project, reports the [SyntaxError] of
    [JSON.parse] and issues no request.  Every other call reports
    ["<Provider> API error (<status>): <body>"], or
    ["Failed to fetch audio: <status>"] for the fetch of an audio URL, so
    its error text holds the status code and (for the API calls) the body
    of the answer. *)
Theorem http_error_reported (t : tool) (rt : runtime) (net : network)
    (id : string) (env : gmap string string) (params : gmap string jsval)
    (action key : string) (status : Z) (body : string) :
  answers_error net status body ->
  encodes rt ->
  supplied params "action" action ->
  In action (actions t) ->
  credential env (credential_variable t) = Some key ->
  first_missing params (required_parameters t action) = None ->
  let message := reported_error rt t action params (http_error t action status body) in
  (exists tr,
     run (execute t rt net id env params) = (Ok (error_envelope t action message), tr)
     /\ (fails_before_request rt t action params = true -> tr = []))
  /\ (fails_before_request rt t action params = false ->
      includes (decimal status) message = true)
  /\ (fails_before_request rt t action params = false ->
      fetches_audio t action = false ->
      includes body message = true).
Proof.
  intros H Henc Ha Hin Hc Hreq message. subst message. unfold reported_error.
  destruct (fails_before_request rt t action params) eqn:Hf.
  - split; [| split; intros E; discriminate E].
    exists []. split; [| reflexivity]. now apply stops_before_request with (key := key).
  - split; [| split; intros _; [apply includes_http_status | apply includes_http_body]].
    destruct (http_error_unfiltered t rt net id env params action key status body)
      as (tr & Hrun); try assumption; [now apply (reaches_request rt) |].
    exists tr. split; [exact Hrun | intros E; discriminate E].
Qed.

Lemma http_error_reported_witness :
  let params : gmap string jsval :=
    {[ "action" := VStr "getRepo"; "owner" := VStr "octocat"; "repo" := VStr "hello" ]} in
  let message :=
    reported_error mock_runtime GitHubTool "getRepo" params
      (http_error GitHubTool "getRepo" 404 "Not Found") in
  (exists tr,
     run (execute GitHubTool mock_runtime network_404 "call-1"
            {[ "GITHUB_TOKEN" := "ghp_token" ]} params)
       = (Ok (error_envelope GitHubTool "getRepo" message), tr)
     /\ (fails_before_request mock_runtime GitHubTool "getRepo" params = true -> tr = []))
  /\ (fails_before_request mock_runtime GitHubTool "getRepo" params = false ->
      includes (decimal 404) message = true)
  /\ (fails_before_request mock_runtime GitHubTool "getRepo" params = false ->
      fetches_audio GitHubTool "getRepo" = false ->
      includes "Not Found" message = true).
Proof.
  intros params.
  apply (http_error_reported GitHubTool mock_runtime network_404 "call-1"
           {[ "GITHUB_TOKEN" := "ghp_token" ]} params "getRepo" "ghp_token"
           404 "Not Found").
  - intros rq. eexists. repeat split; reflexivity.
  - intros s. eexists. reflexivity.
  - reflexivity.
  - cbn. tauto.
  - reflexivity.
  - reflexivity.
Defined.

(** Under [404 Not Found] the GitHub call reports the status and the body;
    the Linear listing by team reports the parser's error and nothing of
    the answer. *)
Lemma http_error_examples :
  reported_error mock_runtime GitHubTool "getRepo"
      {[ "action" := VStr "getRepo"; "owner" := VStr "octocat"; "repo" := VStr "hello" ]}
      (http_error GitHubTool "getRepo" 404 "Not Found")
    = "GitHub API error (404): Not Found"
  /\ run (execute LinearTool mock_runtime network_404 "call-1"
            {[ "LINEAR_API_KEY" := "lin_api_key" ]}
            {[ "action" := VStr "listIssues"; "teamId" := VStr "T1" ]})
     = (Ok (error_envelope LinearTool "listIssues" "Unexpected token in JSON"), []).
Proof. split; reflexivity. Qed.

Lemma githubRequest_rejected net e endpoint token method payload :
  rejects net e -> throws (GitHub.githubRequest net endpoint token method payload) e.
Proof. intros H. apply throws_bind, fetch_rejects, H. Qed.

Lemma linearGraphQL_rejected rt net e query variables apiKey :
  rejects net e -> throws (Linear.linearGraphQL rt net query variables apiKey) e.
Proof. intros H. apply throws_bind, fetch_rejects, H. Qed.

Lemma elevenlabsRequest_rejected rt net e endpoint apiKey method payload form :
  rejects net e ->
  throws (ElevenLabs.elevenlabsRequest rt net endpoint apiKey method payload form) e.
Proof. intros H. apply throws_bind, fetch_rejects, H. Qed.

Lemma openaiRequest_rejected net e endpoint apiKey payload :
  rejects net e -> throws (OpenAI.openaiRequest net endpoint apiKey payload) e.
Proof. intros H. apply throws_bind, fetch_rejects, H. Qed.

(** The calls that get as far as their request. *)
Lemma transport_failure_unfiltered (t : tool) (rt : runtime) (net : network)
    (id : string) (env : gmap string string) (params : gmap string jsval)
    (action key : string) (e : exn) :
  rejects net e ->
  encodes rt ->
  supplied params "action" action ->
  In action (actions t) ->
  credential env (credential_variable t) = Some key ->
  first_missing params (required_parameters t action) = None ->
  unfiltered t action params ->
  exists tr,
    run (execute t rt net id env params)
      = (Ok (error_envelope t action (message_of e)), tr).
Proof.
  intros H Henc Ha Hin Hc Hreq Hf. destruct e as [m]. cbn [message_of].
  apply readStringParam_required_supplied in Ha.
  unfold run, unfiltered, omitted in *.
  destruct t; cbn [execute credential_variable actions] in *;
    unfold Linear.execute, GitHub.execute, ElevenLabs.execute, OpenAI.execute;
    rewrite Ha, bind_lift_ok, Hc; clear Ha Hc.
  - each_action Hin; all_present Hreq;
      try (destruct (Hf eq_refl eq_refl) as [Ht Hp]); clear Hf;
      catch_error; apply throws_bind;
      unfold Linear.dispatch; eval_cases; rewrite_reads; other_reads; guards;
      try change (Linear.listIssues_variable rt (Linear.listIssues_filter rt None None))
        with (@Ok jsval VUndefined);
      throws_walk rt Henc ltac:(apply linearGraphQL_rejected, H).
  - clear Hf. each_action Hin; all_present Hreq; rewrite_reads; other_reads;
      rewrite ?bind_lift_ok;
      catch_error; apply throws_bind;
      unfold GitHub.dispatch, GitHub.owner_and_repo_required; eval_cases;
      rewrite_reads; other_reads; guards;
      throws_walk rt Henc ltac:(apply githubRequest_rejected, H).
  - clear Hf. each_action Hin; all_present Hreq;
      catch_error; apply throws_bind;
      unfold ElevenLabs.dispatch; eval_cases; rewrite_reads; other_reads; guards;
      throws_walk rt Henc
        ltac:(first [ apply elevenlabsRequest_rejected, H | apply fetch_rejects, H ]).
  - clear Hf. each_action Hin; all_present Hreq;
      catch_error; apply throws_bind;
      unfold OpenAI.dispatch; eval_cases; rewrite_reads; other_reads; guards;
      throws_walk rt Henc
        ltac:(first [ apply openaiRequest_rejected, H | apply fetch_rejects, H ]).
Qed.

(** X6. When the transport itself fails (the [fetch] promise rejects on
    every request), a recognised action whose required parameters are
    there returns the error envelope
    ["<Provider> error: <message>"] with [details = {action, error}].
    The message is that of the transport failure, except for the one call
    that does not get to its request, [listIssues] with a team or a
    project, which reports the [SyntaxError] of [JSON.parse] and issues no
    request. *)
Theorem transport_failure_reported (t : tool) (rt : runtime) (net : network)
    (id : string) (env : gmap string string) (params : gmap string jsval)
    (action key : string) (e : exn) :
  rejects net e ->
  encodes rt ->
  supplied params "action" action ->
  In action (actions t) ->
  credential env (credential_variable t) = Some key ->
  first_missing params (required_parameters t action) = None ->
  exists tr,
    run (execute t rt net id env params)
      = (Ok (error_envelope t action
               (reported_error rt t action params (message_of e))), tr)
    /\ (fails_before_request rt t action params = true -> tr = []).
Proof.
  intros H Henc Ha Hin Hc Hreq. unfold reported_error.
  destruct (fails_before_request rt t action params) eqn:Hf.
  - exists []. split; [| reflexivity]. now apply stops_before_request with (key := key).
  - destruct (transport_failure_unfiltered t rt net id env params action key e)
      as (tr & Hrun); try assumption; [now apply (reaches_request rt) |].
    exists tr. split; [exact Hrun | intros E; discriminate E].
Qed.

Lemma transport_failure_reported_witness :
  let params : gmap string jsval := {[ "action" := VStr "listTeams" ]} in
  exists tr,
    run (execute LinearTool mock_runtime (fun _ => Throw (Error "fetch failed")) "call-1"
           {[ "LINEAR_API_KEY" := "lin_api_key" ]} params)
      = (Ok (error_envelope LinearTool "listTeams"
               (reported_error mock_runtime LinearTool "listTeams" params
                  (message_of (Error "fetch failed")))), tr)
    /\ (fails_before_request mock_runtime LinearTool "listTeams" params = true -> tr = []).
Proof.
  intros params.
  apply (transport_failure_reported LinearTool mock_runtime
           (fun _ => Throw (Error "fetch failed")) "call-1"
           {[ "LINEAR_API_KEY" := "lin_api_key" ]} params "listTeams" "lin_api_key"
           (Error "fetch failed")).
  - intros rq. reflexivity.
  - intros s. eexists. reflexivity.
  - reflexivity.
  - cbn. tauto.
  - reflexivity.
  - reflexivity.
Defined.

(** With the network down, [listTeams] reports the failure of the
    transport; the listing by team reports the parser's error. *)
Lemma transport_failure_examples :
  reported_error mock_runtime LinearTool "listTeams" {[ "action" := VStr "listTeams" ]}
      (message_of (Error "fetch failed"))
    = "fetch failed"
  /\ run (execute LinearTool mock_runtime (fun _ => Throw (Error "fetch failed")) "call-1"
            {[ "LINEAR_API_KEY" := "lin_api_key" ]}
            {[ "action" := VStr "listIssues"; "teamId" := VStr "T1" ]})
     = (Ok (error_envelope LinearTool "listIssues" "Unexpected token in JSON"), []).
Proof. split; reflexivity. Qed.

(** ** Audio results *)






(** A payload of four characters is shown whole, and still called
    truncated. *)
Lemma short_payload_is_shown_whole :
  audio_text "textToSpeech" "audio/mpeg" (String.substring 0 100 "QUJD")
  = "Audio generated successfully (audio/mpeg). Base64 audio data: QUJD... (truncated)".
Proof. reflexivity. Qed.

(** ** The requests of the GitHub tool *)

Lemma githubRequest_issues net endpoint token :
  issues (GitHub.githubRequest net endpoint token "GET" VUndefined)
         [github_get token endpoint].
Proof. unfold GitHub.githubRequest. issues_walk. Qed.

(** The requests of a call that got as far as its [switch]. *)
Ltac issues_execute :=
  apply issues_try_catch; [| intro; apply issues_ret];
  apply issues_bind; [| intros [? | ?]; apply issues_ret].

(** X8. [listIssues] and [listPRs] ask for the [open] items unless a
    [state] is supplied: the one request is a [GET] of
    [/repos/<owner>/<repo>/issues?state=<state>&per_page=30] (or
    [/pulls]), where [<state>] is the supplied state, or [open]. *)
Theorem github_list_state (rt : runtime) (net : network) (id : string)
    (env : gmap string string) (params : gmap string jsval)
    (action token owner repo : string) :
  In action ["listIssues"; "listPRs"] ->
  supplied params "action" action ->
  credential env (credential_variable GitHubTool) = Some token ->
  supplied params "owner" owner ->
  supplied params "repo" repo ->
  exists state,
    snd (run (execute GitHubTool rt net id env params))
      = [github_get token ("/repos/" +:+ owner +:+ "/" +:+ repo +:+ "/"
                           +:+ list_resource action +:+ "?state=" +:+ state
                           +:+ "&per_page=30")]
    /\ (omitted params "state" -> state = "open")
    /\ (forall s, supplied params "state" s -> state = s).
Proof.
  intros Hin Ha Hc Ho Hr.
  destruct (supplied_read _ _ _ Ho) as (co & so & ->).
  destruct (supplied_read _ _ _ Hr) as (cr & sr & ->).
  apply readStringParam_required_supplied in Ha.
  destruct (optional_read params "state") as (st & Hs).
  exists (or_default st "open"). split.
  - unfold run. cbn [execute credential_variable] in *. unfold GitHub.execute.
    unfold supplied in Ho, Hr. rewrite Ha, bind_lift_ok, Hc, Ho, Hr, Hs, !bind_lift_ok.
    match goal with |- snd (?m []) = [?rq] => assert (issues m [rq]) as Hi end;
      [| exact (Hi [])].
    issues_execute.
    each_action Hin; unfold GitHub.dispatch, GitHub.owner_and_repo_required;
      eval_cases; guards;
      (apply issues_bind; [apply githubRequest_issues | intro; apply issues_ret]).
  - unfold omitted, supplied. rewrite Hs. split.
    + intros E. inversion E. reflexivity.
    + intros s E. inversion E; subst.
      destruct (optional_cases params "state") as [E' | (c & s' & E')];
        rewrite Hs in E'; inversion E'; reflexivity.
Qed.

Lemma github_list_state_witness :
  exists state,
    snd (run (execute GitHubTool mock_runtime network_ok "call-1"
                {[ "GITHUB_TOKEN" := "ghp_token" ]}
                {[ "action" := VStr "listPRs"; "owner" := VStr "octocat";
                   "repo" := VStr "hello" ]}))
      = [github_get "ghp_token"
           ("/repos/" +:+ "octocat" +:+ "/" +:+ "hello" +:+ "/"
            +:+ list_resource "listPRs" +:+ "?state=" +:+ state +:+ "&per_page=30")]
    /\ (omitted {[ "action" := VStr "listPRs"; "owner" := VStr "octocat";
                  "repo" := VStr "hello" ]} "state" -> state = "open")
    /\ (forall s, supplied {[ "action" := VStr "listPRs"; "owner" := VStr "octocat";
                             "repo" := VStr "hello" ]} "state" s -> state = s).
Proof.
  apply (github_list_state mock_runtime network_ok "call-1"
           {[ "GITHUB_TOKEN" := "ghp_token" ]}
           {[ "action" := VStr "listPRs"; "owner" := VStr "octocat";
              "repo" := VStr "hello" ]} "listPRs" "ghp_token" "octocat" "hello");
    first [reflexivity | cbn; tauto].
Defined.

(** X9. [getUser] and [listGists] fall back to the authenticated user
    when no [username] is supplied: the one request is a [GET] of [/user]
    (of [/gists?per_page=30]); with a [username] it is a [GET] of
    [/users/<username>] (of [/users/<username>/gists?per_page=30]). *)
Theorem github_username_fallback (rt : runtime) (net : network) (id : string)
    (env : gmap string string) (params : gmap string jsval)
    (action token : string) :
  In action ["getUser"; "listGists"] ->
  supplied params "action" action ->
  credential env (credential_variable GitHubTool) = Some token ->
  exists endpoint,
    snd (run (execute GitHubTool rt net id env params)) = [github_get token endpoint]
    /\ (omitted params "username" ->
        endpoint = if String.eqb action "getUser" then "/user" else "/gists?per_page=30")
    /\ (forall u, supplied params "username" u ->
        endpoint = "/users/" +:+ u
                   +:+ (if String.eqb action "getUser" then EmptyString
                        else "/gists?per_page=30")).
Proof.
  intros Hin Ha Hc.
  apply readStringParam_required_supplied in Ha.
  unfold run, omitted, supplied. cbn [execute credential_variable] in *.
  unfold GitHub.execute. rewrite Ha, bind_lift_ok, Hc.
  destruct (optional_read params "owner") as (owner & ->).
  destruct (optional_read params "repo") as (repo & ->).
  destruct (optional_read params "state") as (state & ->).
  rewrite !bind_lift_ok.
  destruct (optional_cases params "username") as [Hu | (c & s & Hu)].
  - exists (if String.eqb action "getUser" then "/user" else "/gists?per_page=30").
    rewrite Hu. split; [| split; [reflexivity | intros u E; discriminate E]].
    match goal with |- snd (?m []) = [?rq] => assert (issues m [rq]) as Hi end;
      [| exact (Hi [])].
    issues_execute.
    each_action Hin; unfold GitHub.dispatch; eval_cases; rewrite Hu, bind_lift_ok;
      guards; (apply issues_bind; [apply githubRequest_issues | intro; apply issues_ret]).
  - exists ("/users/" +:+ String c s
            +:+ (if String.eqb action "getUser" then EmptyString
                 else "/gists?per_page=30")).
    rewrite Hu.
    split; [| split; [intros E; discriminate E | intros u E; inversion E; reflexivity]].
    match goal with |- snd (?m []) = [?rq] => assert (issues m [rq]) as Hi end;
      [| exact (Hi [])].
    issues_execute.
    each_action Hin; unfold GitHub.dispatch; eval_cases; rewrite Hu, bind_lift_ok;
      guards.
    + rewrite app_empty_r.
      apply issues_bind; [apply githubRequest_issues | intro; apply issues_ret].
    + apply issues_bind; [apply githubRequest_issues | intro; apply issues_ret].
Qed.

Lemma github_username_fallback_witness :
  exists endpoint,
    snd (run (execute GitHubTool mock_runtime network_ok "call-1"
                {[ "GITHUB_TOKEN" := "ghp_token" ]}
                {[ "action" := VStr "listGists" ]}))
      = [github_get "ghp_token" endpoint]
    /\ (omitted {[ "action" := VStr "listGists" ]} "username" ->
        endpoint = if String.eqb "listGists" "getUser" then "/user"
                   else "/gists?per_page=30")
    /\ (forall u, supplied {[ "action" := VStr "listGists" ]} "username" u ->
        endpoint = "/users/" +:+ u
                   +:+ (if String.eqb "listGists" "getUser" then EmptyString
                        else "/gists?per_page=30")).
Proof.
  apply (github_username_fallback mock_runtime network_ok "call-1"
           {[ "GITHUB_TOKEN" := "ghp_token" ]}
           {[ "action" := VStr "listGists" ]} "listGists" "ghp_token");
    first [reflexivity | cbn; tauto].
Defined.

(** ** The requests of the Linear and OpenAI tools *)

Lemma linearGraphQL_issues rt net query variables apiKey :
  issues (Linear.linearGraphQL rt net query variables apiKey)
         [graphql_request query variables apiKey].
Proof. unfold Linear.linearGraphQL. issues_walk. Qed.

Lemma openaiRequest_issues net endpoint apiKey body :
  issues (OpenAI.openaiRequest net endpoint apiKey body)
         [openai_post apiKey endpoint body].
Proof. unfold OpenAI.openaiRequest. issues_walk. Qed.

(** X10. [updateIssue] sends only what it is given: the [input] of its
    one mutation holds [title], [description] and [stateId] exactly when
    they are supplied (non-empty), [priority] exactly when the argument is
    not [undefined] (a priority of [0] is sent), and nothing else. *)
Theorem updateIssue_sends_supplied_fields (rt : runtime) (net : network) (id : string)
    (env : gmap string string) (params : gmap string jsval) (key issueId : string) :
  supplied params "action" "updateIssue" ->
  credential env (credential_variable LinearTool) = Some key ->
  supplied params "issueId" issueId ->
  exists input,
    snd (run (execute LinearTool rt net id env params))
      = [graphql_request Linear.updateIssue_query
           (VObj [("id", VStr issueId); ("input", VObj input)]) key]
    /\ obj_get input "title" = sent_if_supplied params "title"
    /\ obj_get input "description" = sent_if_supplied params "description"
    /\ obj_get input "stateId" = sent_if_supplied params "stateId"
    /\ obj_get input "priority"
       = match param params "priority" with VUndefined => None | v => Some v end
    /\ (forall k v, obj_get input k = Some v ->
                    In k ["title"; "description"; "stateId"; "priority"]).
Proof.
  intros Ha Hc Hi.
  apply readStringParam_required_supplied in Ha, Hi.
  destruct (optional_read params "title") as (title & Ht).
  destruct (optional_read params "description") as (description & Hd).
  destruct (optional_read params "stateId") as (stateId & Hs).
  eexists. split.
  - unfold run. cbn [execute credential_variable] in *. unfold Linear.execute.
    rewrite Ha, bind_lift_ok, Hc.
    match goal with |- snd (?m []) = [?rq] => assert (issues m [rq]) as H end;
      [| exact (H [])].
    issues_execute. unfold Linear.dispatch. eval_cases.
    rewrite Hi, Ht, Hd, Hs, !bind_lift_ok.
    apply issues_bind; [apply linearGraphQL_issues | intro; apply issues_ret].
  - unfold sent_if_supplied. rewrite Ht, Hd, Hs.
    destruct (optional_cases params "title") as [E | (? & ? & E)];
      rewrite Ht in E; inversion E; subst title; clear E;
      (destruct (optional_cases params "description") as [E | (? & ? & E)];
       rewrite Hd in E; inversion E; subst description; clear E);
      (destruct (optional_cases params "stateId") as [E | (? & ? & E)];
       rewrite Hs in E; inversion E; subst stateId; clear E);
      destruct (param params "priority");
      (repeat split; try reflexivity);
      intros k v H;
      match type of H with
      | obj_get ?l k = _ =>
          let l' := eval vm_compute in l in
          change l with l' in H; cbn [obj_get] in H
      end;
      repeat match type of H with
             | context [String.eqb ?a k] =>
                 destruct (String.eqb_spec a k); [subst; cbn; tauto |]
             end;
      discriminate H.
Qed.

Lemma updateIssue_sends_supplied_fields_witness :
  let params : gmap string jsval :=
    {[ "action" := VStr "updateIssue"; "issueId" := VStr "I1";
       "stateId" := VStr "S2"; "priority" := VNum 0 ]} in
  exists input,
    snd (run (execute LinearTool mock_runtime network_ok "call-1"
                {[ "LINEAR_API_KEY" := "lin_api_key" ]} params))
      = [graphql_request Linear.updateIssue_query
           (VObj [("id", VStr "I1"); ("input", VObj input)]) "lin_api_key"]
    /\ obj_get input "title" = sent_if_supplied params "title"
    /\ obj_get input "description" = sent_if_supplied params "description"
    /\ obj_get input "stateId" = sent_if_supplied params "stateId"
    /\ obj_get input "priority"
       = match param params "priority" with VUndefined => None | v => Some v end
    /\ (forall k v, obj_get input k = Some v ->
                    In k ["title"; "description"; "stateId"; "priority"]).
Proof.
  intros params.
  apply (updateIssue_sends_supplied_fields mock_runtime network_ok "call-1"
           {[ "LINEAR_API_KEY" := "lin_api_key" ]} params "lin_api_key" "I1");
    reflexivity.
Defined.

(** X11. [chat] sends the system prompt first and only when there is one:
    the [messages] of its one request are the [system] message followed by
    the [user] message when [systemPrompt] is supplied, the [user] message
    alone when it is not; the [model] is the supplied one, or
    [gpt-4o-mini]. *)
Theorem chat_messages (rt : runtime) (net : network) (id : string)
    (env : gmap string string) (params : gmap string jsval) (key prompt : string) :
  supplied params "action" "chat" ->
  credential env (credential_variable OpenAITool) = Some key ->
  supplied params "prompt" prompt ->
  exists model messages,
    snd (run (execute OpenAITool rt net id env params))
      = [openai_post key "/chat/completions"
           (VObj [("model", VStr model); ("messages", VArr messages)])]
    /\ (omitted params "model" -> model = "gpt-4o-mini")
    /\ (forall m, supplied params "model" m -> model = m)
    /\ (omitted params "systemPrompt" ->
        messages = [VObj [("role", VStr "user"); ("content", VStr prompt)]])
    /\ (forall s, supplied params "systemPrompt" s ->
        messages = [VObj [("role", VStr "system"); ("content", VStr s)];
                    VObj [("role", VStr "user"); ("content", VStr prompt)]]).
Proof.
  intros Ha Hc Hp.
  apply readStringParam_required_supplied in Ha, Hp.
  destruct (optional_read params "model") as (model & Hm).
  destruct (optional_read params "systemPrompt") as (sys & Hs).
  eexists (or_default model "gpt-4o-mini"), _. split.
  - unfold run. cbn [execute credential_variable] in *. unfold OpenAI.execute.
    rewrite Ha, bind_lift_ok, Hc.
    match goal with |- snd (?m []) = [?rq] => assert (issues m [rq]) as H end;
      [| exact (H [])].
    issues_execute. unfold OpenAI.dispatch. eval_cases.
    rewrite Hp, Hm, Hs, !bind_lift_ok.
    apply issues_bind; [apply openaiRequest_issues | intro; apply issues_ret].
  - unfold omitted, supplied. rewrite Hm, Hs.
    destruct (optional_cases params "model") as [E | (? & ? & E)];
      rewrite Hm in E; inversion E; subst model; clear E;
      (destruct (optional_cases params "systemPrompt") as [E | (? & ? & E)];
       rewrite Hs in E; inversion E; subst sys; clear E);
      repeat split; intros; try discriminate;
      repeat match goal with H : Ok _ = Ok _ |- _ => inversion H; clear H; subst end;
      reflexivity.
Qed.

Lemma chat_messages_witness :
  exists model messages,
    snd (run (execute OpenAITool mock_runtime network_ok "call-1"
                {[ "OPENAI_API_KEY" := "sk-key" ]}
                {[ "action" := VStr "chat"; "prompt" := VStr "Hi";
                   "systemPrompt" := VStr "Be brief" ]}))
      = [openai_post "sk-key" "/chat/completions"
           (VObj [("model", VStr model); ("messages", VArr messages)])]
    /\ (omitted {[ "action" := VStr "chat"; "prompt" := VStr "Hi";
                  "systemPrompt" := VStr "Be brief" ]} "model" ->
        model = "gpt-4o-mini")
    /\ (forall m, supplied {[ "action" := VStr "chat"; "prompt" := VStr "Hi";
                             "systemPrompt" := VStr "Be brief" ]} "model" m ->
        model = m)
    /\ (omitted {[ "action" := VStr "chat"; "prompt" := VStr "Hi";
                  "systemPrompt" := VStr "Be brief" ]} "systemPrompt" ->
        messages = [VObj [("role", VStr "user"); ("content", VStr "Hi")]])
    /\ (forall s, supplied {[ "action" := VStr "chat"; "prompt" := VStr "Hi";
                             "systemPrompt" := VStr "Be brief" ]} "systemPrompt" s ->
        messages = [VObj [("role", VStr "system"); ("content", VStr s)];
                    VObj [("role", VStr "user"); ("content", VStr "Hi")]]).
Proof.
  apply (chat_messages mock_runtime network_ok "call-1"
           {[ "OPENAI_API_KEY" := "sk-key" ]}
           {[ "action" := VStr "chat"; "prompt" := VStr "Hi";
              "systemPrompt" := VStr "Be brief" ]} "sk-key" "Hi");
    reflexivity.
Defined.

(** ** A GraphQL answer without errors *)

(** X12. When the answer to a GraphQL request is a success whose JSON
    body reports no error (no [errors] member, a falsy one, or an empty
    array), [linearGraphQL] returns the [data] member of the body,
    [undefined] when there is none, after that one request. *)
Theorem linearGraphQL_returns_data (rt : runtime) (net : network)
    (query : string) (variables : jsval) (apiKey : string) (tr : list request)
    (r : response) (members : list (string * jsval)) :
  net (graphql_request query variables apiKey) = Ok r ->
  resp_ok r = true ->
  resp_json r = Ok (VObj members) ->
  no_errors members ->
  Linear.linearGraphQL rt net query variables apiKey tr
    = (Ok (default VUndefined (obj_get members "data")),
       (tr ++ [graphql_request query variables apiKey])%list).
Proof.
  intros Hnet Hok Hjson Herrors.
  unfold Linear.linearGraphQL, bind, fetch, lift, throw, ret.
  fold (graphql_request query variables apiKey).
  rewrite Hnet, Hok, Hjson. cbn [negb get_prop].
  destruct Herrors as [-> | ->]; reflexivity.
Qed.

Lemma linearGraphQL_returns_data_witness :
  Linear.linearGraphQL mock_runtime network_ok Linear.listTeams_query (VObj [])
      "lin_api_key" []
    = (Ok (VObj []), [graphql_request Linear.listTeams_query (VObj []) "lin_api_key"]).
Proof.
  apply (linearGraphQL_returns_data mock_runtime network_ok Linear.listTeams_query
           (VObj []) "lin_api_key" []
           (mock_response true 200 ("{" +:+ dquote +:+ "data" +:+ dquote +:+ ": {}}"))
           [("data", VObj [])]);
    first [reflexivity | left; reflexivity].
Defined.

(** ** Every envelope is well formed *)

Ltac well_formed_now :=
  first [ exact I
        | split; [eexists; reflexivity | first [left; reflexivity | right; reflexivity]] ].

Lemma well_formed_after_switch rt (action : option string) (d : M completion) :
  post d well_formed_completion ->
  post (done <- d ;;
        match done with
        | Return e => ret e
        | Break result =>
            ret {| content := [{| type := "text"; text := JSON_stringify rt result |}];
                   details := {[ "action" := of_opt action; "success" := VBool true ]} |}
        end)
       well_formed.
Proof.
  intros Hd. eapply post_bind_strong; [exact Hd |].
  intros [result | e] He; apply post_ret; [well_formed_now | exact He].
Qed.

(** X13. Every envelope a tool returns holds exactly one content block,
    of type [text], and its [details] never hold both [success] and
    [error]. *)
Theorem envelope_well_formed (t : tool) (rt : runtime) (net : network) (id : string)
    (env : gmap string string) (params : gmap string jsval)
    (e : envelope) (tr : list request) :
  run (execute t rt net id env params) = (Ok e, tr) -> well_formed e.
Proof.
  assert (post (execute t rt net id env params) well_formed) as H; [| apply H].
  destruct t; cbn [execute];
    unfold Linear.execute, GitHub.execute, ElevenLabs.execute, OpenAI.execute;
    (apply post_bind; intro action);
    (match goal with |- context [credential ?en ?n] => destruct (credential en n) end;
     [| apply post_ret; well_formed_now]);
    (apply post_try_catch; [| intro; apply post_ret; well_formed_now]);
    try (do 3 (apply post_bind; intro));
    apply well_formed_after_switch;
    unfold Linear.dispatch, GitHub.dispatch, GitHub.owner_and_repo_required,
      ElevenLabs.dispatch, OpenAI.dispatch;
    post_walk; apply post_ret; well_formed_now.
Qed.

Lemma envelope_well_formed_witness :
  well_formed (error_envelope GitHubTool "getRepo" "GitHub API error (404): Not Found").
Proof.
  apply (envelope_well_formed GitHubTool mock_runtime network_404 "call-1"
           {[ "GITHUB_TOKEN" := "ghp_token" ]}
           {[ "action" := VStr "getRepo"; "owner" := VStr "octocat";
              "repo" := VStr "hello" ]}
           _ [github_get "ghp_token" "/repos/octocat/hello"]).
  reflexivity.
Defined.

(** ** The uploads of the two-step actions *)

Lemma issues_fetch_then {A} (net : network) (rq : request) (r : response)
    (k : response -> M A) (rqs : list request) :
  net rq = Ok r -> issues (k r) rqs -> issues (bind (fetch net rq) k) (rq :: rqs).
Proof.
  intros Hnet Hk tr. unfold bind, fetch. rewrite Hnet, (Hk (tr ++ [rq])%list).
  now rewrite <- app_assoc.
Qed.

(** X14. When the audio URL of [speechToSpeech] is fetched with success,
    the call issues exactly two requests, the fetch and then the multipart
    upload of what was fetched, as the file [audio.mp3], with the voice
    [21m00Tcm4TlvDq8ikWAM], the model [eleven_english_sts_v2] and the
    voice settings [0.5] and [0.75] for what is omitted; the upload carries
    no JSON content type. *)
Theorem speechToSpeech_uploads_fetched_audio (rt : runtime) (net : network)
    (id : string) (env : gmap string string) (params : gmap string jsval)
    (key audioUrl audio : string) (r : response) :
  supplied params "action" "speechToSpeech" ->
  credential env (credential_variable ElevenLabsTool) = Some key ->
  supplied params "audioUrl" audioUrl ->
  net (audio_fetch audioUrl) = Ok r ->
  resp_ok r = true ->
  resp_bytes r = Ok audio ->
  exists voiceId modelId stability similarityBoost,
    snd (run (execute ElevenLabsTool rt net id env params))
      = [audio_fetch audioUrl;
         speech_upload key voiceId modelId stability similarityBoost audio]
    /\ (omitted params "voiceId" -> voiceId = "21m00Tcm4TlvDq8ikWAM")
    /\ (omitted params "modelId" -> modelId = "eleven_english_sts_v2")
    /\ (params !! "stability" = None -> stability = VNum (1 # 2))
    /\ (params !! "similarityBoost" = None -> similarityBoost = VNum (3 # 4)).
Proof.
  intros Ha Hc Hu Hnet Hok Hbytes.
  apply readStringParam_required_supplied in Ha, Hu.
  destruct (optional_read params "voiceId") as (ov & Hv).
  destruct (optional_read params "modelId") as (om & Hm).
  exists (or_default ov ElevenLabs.DEFAULT_VOICE_ID),
         (or_default om "eleven_english_sts_v2"),
         (nullish (param params "stability") (VNum (1 # 2))),
         (nullish (param params "similarityBoost") (VNum (3 # 4))).
  split.
  - unfold run. cbn [execute credential_variable] in *. unfold ElevenLabs.execute.
    rewrite Ha, bind_lift_ok, Hc.
    match goal with |- snd (?m []) = ?rqs => assert (issues m rqs) as H end;
      [| exact (H [])].
    issues_execute. unfold ElevenLabs.dispatch. eval_cases.
    rewrite Hu, Hv, Hm, !bind_lift_ok. cbn [template of_opt].
    apply issues_fetch_then with (r := r); [exact Hnet |].
    rewrite Hok, Hbytes. cbn [negb]. rewrite bind_lift_ok.
    apply issues_bind; [apply elevenlabsRequest_issues |].
    intro result. issues_walk.
  - unfold omitted, param. rewrite Hv, Hm.
    repeat split; intros H; inversion H; subst; try reflexivity;
      rewrite H; reflexivity.
Qed.

Lemma speechToSpeech_uploads_fetched_audio_witness :
  let params : gmap string jsval :=
    {[ "action" := VStr "speechToSpeech";
       "audioUrl" := VStr "https://example.com/a.mp3" ]} in
  exists voiceId modelId stability similarityBoost,
    snd (run (execute ElevenLabsTool mock_runtime network_audio "call-1"
                {[ "ELEVENLABS_API_KEY" := "xi_key" ]} params))
      = [audio_fetch "https://example.com/a.mp3";
         speech_upload "xi_key" voiceId modelId stability similarityBoost
           (string_of_list_ascii (repeat "A"%char 150))]
    /\ (omitted params "voiceId" -> voiceId = "21m00Tcm4TlvDq8ikWAM")
    /\ (omitted params "modelId" -> modelId = "eleven_english_sts_v2")
    /\ (params !! "stability" = None -> stability = VNum (1 # 2))
    /\ (params !! "similarityBoost" = None -> similarityBoost = VNum (3 # 4)).
Proof.
  intros params.
  apply (speechToSpeech_uploads_fetched_audio mock_runtime network_audio "call-1"
           {[ "ELEVENLABS_API_KEY" := "xi_key" ]} params "xi_key"
           "https://example.com/a.mp3" (string_of_list_ascii (repeat "A"%char 150))
           audio_response);
    reflexivity.
Defined.

(** X15. When the audio URL of [transcribe] is fetched with success, the
    call issues exactly two requests, however the second one ends: the
    fetch, and then the multipart upload of what was fetched, as the file
    [audio.mp3] with the model [whisper-1], to the transcription
    endpoint. *)
Theorem transcribe_uploads_fetched_audio (rt : runtime) (net : network)
    (id : string) (env : gmap string string) (params : gmap string jsval)
    (key audioUrl audio : string) (r : response) :
  supplied params "action" "transcribe" ->
  credential env (credential_variable OpenAITool) = Some key ->
  supplied params "audioUrl" audioUrl ->
  net (audio_fetch audioUrl) = Ok r ->
  resp_ok r = true ->
  resp_bytes r = Ok audio ->
  snd (run (execute OpenAITool rt net id env params))
    = [audio_fetch audioUrl; whisper_upload key audio].
Proof.
  intros Ha Hc Hu Hnet Hok Hbytes.
  apply readStringParam_required_supplied in Ha, Hu.
  unfold run. cbn [execute credential_variable] in *. unfold OpenAI.execute.
  rewrite Ha, bind_lift_ok, Hc.
  match goal with |- snd (?m []) = ?rqs => assert (issues m rqs) as H end;
    [| exact (H [])].
  issues_execute. unfold OpenAI.dispatch. eval_cases.
  rewrite Hu, !bind_lift_ok. cbn [template of_opt].
  apply issues_fetch_then with (r := r); [exact Hnet |].
  rewrite Hok, Hbytes. cbn [negb]. rewrite bind_lift_ok.
  apply issues_bind; [apply issues_fetch |].
  intro response. issues_walk.
Qed.

Lemma transcribe_uploads_fetched_audio_witness :
  snd (run (execute OpenAITool mock_runtime network_audio "call-1"
              {[ "OPENAI_API_KEY" := "sk-key" ]}
              {[ "action" := VStr "transcribe";
                 "audioUrl" := VStr "https://example.com/a.mp3" ]}))
    = [audio_fetch "https://example.com/a.mp3";
       whisper_upload "sk-key" (string_of_list_ascii (repeat "A"%char 150))].
Proof.
  apply (transcribe_uploads_fetched_audio mock_runtime network_audio "call-1"
           {[ "OPENAI_API_KEY" := "sk-key" ]}
           {[ "action" := VStr "transcribe";
              "audioUrl" := VStr "https://example.com/a.mp3" ]}
           "sk-key" "https://example.com/a.mp3"
           (string_of_list_ascii (repeat "A"%char 150)) audio_response);
    reflexivity.
Defined.

(** X16. When the upload of [transcribe] is answered with a status that is
    not [ok], the call returns the error envelope
    ["Whisper API error (<status>): <body>"], after the two requests. *)
Theorem transcribe_whisper_error (rt : runtime) (net : network)
    (id : string) (env : gmap string string) (params : gmap string jsval)
    (key audioUrl audio body : string) (r upload : response) :
  supplied params "action" "transcribe" ->
  credential env (credential_variable OpenAITool) = Some key ->
  supplied params "audioUrl" audioUrl ->
  net (audio_fetch audioUrl) = Ok r ->
  resp_ok r = true ->
  resp_bytes r = Ok audio ->
  net (whisper_upload key audio) = Ok upload ->
  resp_ok upload = false ->
  resp_text upload = Ok body ->
  run (execute OpenAITool rt net id env params)
    = (Ok (error_envelope OpenAITool "transcribe"
             ("Whisper API error (" +:+ decimal (resp_status upload) +:+ "): " +:+ body)),
       [audio_fetch audioUrl; whisper_upload key audio]).
Proof.
  intros Ha Hc Hu Hnet Hok Hbytes Hup Hno Htext.
  apply readStringParam_required_supplied in Ha, Hu.
  unfold run, audio_fetch, whisper_upload in *.
  cbn [execute credential_variable] in *. unfold OpenAI.execute.
  rewrite Ha, bind_lift_ok, Hc. unfold OpenAI.dispatch. eval_cases.
  rewrite Hu. unfold try_catch, bind, fetch, lift, throw, ret. cbn [template of_opt].
  rewrite Hnet, Hok. cbn [negb]. rewrite Hbytes. cbn [app].
  rewrite Hup, Hno. cbn [negb]. rewrite Htext. reflexivity.
Qed.

Lemma transcribe_whisper_error_witness :
  run (execute OpenAITool mock_runtime network_upload_down "call-1"
         {[ "OPENAI_API_KEY" := "sk-key" ]}
         {[ "action" := VStr "transcribe";
            "audioUrl" := VStr "https://example.com/a.mp3" ]})
    = (Ok (error_envelope OpenAITool "transcribe" "Whisper API error (500): overloaded"),
       [audio_fetch "https://example.com/a.mp3";
        whisper_upload "sk-key" (string_of_list_ascii (repeat "A"%char 150))]).
Proof.
  apply (transcribe_whisper_error mock_runtime network_upload_down "call-1"
           {[ "OPENAI_API_KEY" := "sk-key" ]}
           {[ "action" := VStr "transcribe";
              "audioUrl" := VStr "https://example.com/a.mp3" ]}
           "sk-key" "https://example.com/a.mp3"
           (string_of_list_ascii (repeat "A"%char 150)) "overloaded"
           audio_response (mock_response false 500 "overloaded"));
    reflexivity.
Defined.

(** ** Actions that only read *)

Ltac sends_all tac :=
  repeat first
    [ apply sends_ret
    | apply sends_throw
    | apply sends_lift
    | apply sends_fetch; tac
    | apply sends_try_catch; [| intro]
    | apply sends_bind; [| intro]
    | progress cbv iota
    | match goal with
      | |- sends (if ?b then _ else _) _ => destruct b
      | |- sends (match ?x with _ => _ end) _ => destruct x
      end ].

Lemma is_case_other (action label : string) :
  action <> label -> is_case (Some action) label = false.
Proof. intros H. cbn [is_case]. now apply String.eqb_neq. Qed.

(** X17. Of the GitHub actions only [createIssue] writes: for every other
    action, whatever the arguments are and however the call ends, every
    request issued is a [GET] without a body. *)
Theorem github_only_createIssue_writes (rt : runtime) (net : network) (id : string)
    (env : gmap string string) (params : gmap string jsval) (action : string) :
  supplied params "action" action ->
  action <> "createIssue" ->
  Forall plain_get (snd (run (execute GitHubTool rt net id env params))).
Proof.
  intros Ha Hne. apply readStringParam_required_supplied in Ha.
  assert (sends (execute GitHubTool rt net id env params) plain_get) as H;
    [| apply (H []); constructor].
  cbn [execute]. unfold GitHub.execute. rewrite Ha, bind_lift_ok.
  unfold GitHub.dispatch, GitHub.owner_and_repo_required, GitHub.githubRequest.
  rewrite (is_case_other _ _ Hne).
  sends_all ltac:(split; reflexivity).
Qed.

Lemma github_only_createIssue_writes_witness :
  Forall plain_get
    (snd (run (execute GitHubTool mock_runtime network_ok "call-1"
                 {[ "GITHUB_TOKEN" := "ghp_token" ]}
                 {[ "action" := VStr "getIssue"; "owner" := VStr "octocat";
                    "repo" := VStr "hello"; "number" := VNum 7 ]}))).
Proof.
  apply (github_only_createIssue_writes mock_runtime network_ok "call-1"
           {[ "GITHUB_TOKEN" := "ghp_token" ]}
           {[ "action" := VStr "getIssue"; "owner" := VStr "octocat";
              "repo" := VStr "hello"; "number" := VNum 7 ]} "getIssue");
    first [reflexivity | discriminate].
Defined.

(** X18. Of the Linear actions only [createIssue] and [updateIssue]
    mutate: for every other action, every request issued carries a GraphQL
    document that is a [query]. *)
Theorem linear_only_two_actions_mutate (rt : runtime) (net : network) (id : string)
    (env : gmap string string) (params : gmap string jsval) (action : string) :
  supplied params "action" action ->
  action <> "createIssue" ->
  action <> "updateIssue" ->
  Forall graphql_query_only (snd (run (execute LinearTool rt net id env params))).
Proof.
  intros Ha Hc Hu. apply readStringParam_required_supplied in Ha.
  assert (sends (execute LinearTool rt net id env params) graphql_query_only) as H;
    [| apply (H []); constructor].
  cbn [execute]. unfold Linear.execute. rewrite Ha, bind_lift_ok.
  unfold Linear.dispatch, Linear.linearGraphQL.
  rewrite (is_case_other _ _ Hc), (is_case_other _ _ Hu).
  sends_all ltac:(eexists _, _; split; reflexivity).
Qed.

Lemma linear_only_two_actions_mutate_witness :
  Forall graphql_query_only
    (snd (run (execute LinearTool mock_runtime network_ok "call-1"
                 {[ "LINEAR_API_KEY" := "lin_api_key" ]}
                 {[ "action" := VStr "searchIssues"; "query" := VStr "crash" ]}))).
Proof.
  apply (linear_only_two_actions_mutate mock_runtime network_ok "call-1"
           {[ "LINEAR_API_KEY" := "lin_api_key" ]}
           {[ "action" := VStr "searchIssues"; "query" := VStr "crash" ]}
           "searchIssues");
    first [reflexivity | discriminate].
Defined.
